(** * Robust topic models: the stability-scoring pipeline of [robust_lda.py]

    A shallow embedding of class [RobustTopics]: the parameter sampler
    ([_compute_param_combinations] and its helpers), the run orchestrator
    ([fit_models]), the ranking builder ([_create_ranking_vectors],
    [_terms_to_ranking], [_get_top_terms]), the similarity engine and report
    aggregator ([_compute_topic_stability], [_jaccard_similarity]) and the
    two views ([rank_models], [analyse_sample]).

    Conventions of the embedding.
    - Python exceptions are values of [exn]; a computation that can raise
      returns a [result].  Code that mutates [self.models] before it raises
      returns the mutated object next to the exception.
    - A Python [float] / [numpy.float64] is a [float64]: the rational it
      denotes, an infinity or NaN.  Arithmetic is exact on the rationals;
      binary64 rounding and signed zeros are not modelled.
    - Python [dict]s whose iteration order the code relies on ([params],
      [self.models], a sampled configuration) are association lists in
      insertion order; Python [set]s are [gset]s and [list(a_set)] is
      [elements], whose order is left unspecified, as Python's is.
    - scikit-learn, scipy, numpy's sorting and reductions and [sobol_seq] are
      outside the repository: they enter through the class [External]. *)

From Stdlib Require Import QArith Qcanon Qround.
From stdpp Require Import base numbers list gmap strings pretty sorting.

Local Open Scope string_scope.
Local Open Scope list_scope.

(** ** Exceptions and the error monad *)

Inductive exn : Set :=
  | AttributeError
  | AxisError
  | IndexError
  | KeyError
  | TypeError
  | ValueError
  | ZeroDivisionError
  | ExternalError (code : nat).

Inductive result (A : Type) : Type :=
  | Ok (a : A)
  | Raise (e : exn).
Arguments Ok {A} a.
Arguments Raise {A} e.

Global Instance exn_eq_dec : EqDecision exn.
Proof. solve_decision. Defined.
Global Instance result_eq_dec `{EqDecision A} : EqDecision (result A).
Proof. solve_decision. Defined.

Global Instance result_ret : MRet result := λ A a, Ok a.
Global Instance result_bind : MBind result := λ A B f m,
  match m with Ok a => f a | Raise e => Raise e end.
Global Instance result_fmap : FMap result := λ A B f m,
  match m with Ok a => Ok (f a) | Raise e => Raise e end.

Definition raises {A} (m : result A) : Prop := ∃ e, m = Raise e.

(** [l[i]] for a Python list and a non-negative index. *)
Definition getitem {A} (l : list A) (i : nat) : result A :=
  match l !! i with Some x => Ok x | None => Raise IndexError end.

(** [l[i]] for a Python list and any integer index: a negative index counts
    from the end. *)
Definition getitem_Z {A} (l : list A) (i : Z) : result A :=
  let n := Z.of_nat (length l) in
  if bool_decide (0 ≤ i)%Z then getitem l (Z.to_nat i)
  else if bool_decide (0 ≤ i + n)%Z then getitem l (Z.to_nat (i + n))
  else Raise IndexError.

(** ** Floating-point values *)

Inductive float64 : Set :=
  | Fin (q : Qc)
  | Inf (neg : bool)
  | NaN.

Global Instance float64_eq_dec : EqDecision float64.
Proof. solve_decision. Defined.

Definition Qc_of_nat (n : nat) : Qc := Qc_of_Z (Z.of_nat n).

Definition Qc_negb (q : Qc) : bool := bool_decide (q < 0)%Qc.

Definition f_add (x y : float64) : float64 :=
  match x, y with
  | Fin a, Fin b => Fin (a + b)
  | Fin _, Inf s | Inf s, Fin _ => Inf s
  | Inf s, Inf t => if bool_decide (s = t) then Inf s else NaN
  | _, _ => NaN
  end.

Definition f_mul (x y : float64) : float64 :=
  match x, y with
  | Fin a, Fin b => Fin (a * b)
  | Fin a, Inf s | Inf s, Fin a =>
      if bool_decide (a = 0%Qc) then NaN else Inf (xorb s (Qc_negb a))
  | Inf s, Inf t => Inf (xorb s t)
  | _, _ => NaN
  end.

Definition f_sub (x y : float64) : float64 :=
  f_add x (match y with Fin b => Fin (- b) | Inf s => Inf (negb s) | NaN => NaN end).

(** numpy's true division: dividing by zero is a warning, not an error. *)
Definition f_div (x y : float64) : float64 :=
  match x, y with
  | Fin a, Fin b =>
      if bool_decide (b = 0%Qc)
      then (if bool_decide (a = 0%Qc) then NaN else Inf (Qc_negb a))
      else Fin (a / b)
  | Fin _, Inf _ => Fin 0
  | Inf s, Fin b => Inf (xorb s (Qc_negb b))
  | _, _ => NaN
  end.

(** [x < y] on floats: every comparison with NaN is false. *)
Definition f_ltb (x y : float64) : bool :=
  match x, y with
  | Fin a, Fin b => bool_decide (a < b)%Qc
  | Fin _, Inf s => negb s
  | Inf s, Fin _ => s
  | Inf s, Inf t => s && negb t
  | _, _ => false
  end.

(** Python's [int / int]. *)
Definition truediv (x y : nat) : result float64 :=
  if bool_decide (y = 0) then Raise ZeroDivisionError
  else Ok (Fin (Qc_of_nat x / Qc_of_nat y)).

(** [math.floor] and [int(...)] of a finite float. *)
Definition floor (q : Qc) : Z := Qfloor q.
Definition trunc (q : Qc) : Z := (Qnum q ÷ Z.pos (Qden q))%Z.

(** ** Python values of a parameter space *)

Inductive pytype : Set := t_int | t_float | t_str.

#[local] Set Warnings "-register-all".
Inductive pyval : Type :=
  | VInt (z : Z)
  | VFloat (q : Qc)
  | VStr (s : string)
  | VNone
  | VList (l : list pyval).

Global Instance pytype_eq_dec : EqDecision pytype.
Proof. solve_decision. Defined.

(** A [dict] in insertion order. *)
Abbreviation dict V := (list (string * V)).

Definition keys {V} (d : dict V) : list string := d.*1.

Fixpoint dict_get {V} (d : dict V) (k : string) : result V :=
  match d with
  | [] => Raise KeyError
  | (k', v) :: d' => if bool_decide (k' = k) then Ok v else dict_get d' k
  end.

(** [d[k] = v]: overwrite in place, or append a new key. *)
Fixpoint dict_set {V} (d : dict V) (k : string) (v : V) : dict V :=
  match d with
  | [] => [(k, v)]
  | (k', v') :: d' =>
      if bool_decide (k' = k) then (k, v) :: d' else (k', v') :: dict_set d' k v
  end.

(** One entry of [params]: [{"type": ..., "mode": ..., "values": ...}]. *)
Record param : Type := Param {
  p_type : pytype;
  p_mode : string;
  p_values : pyval;
}.

Abbreviation config := (dict pyval).

(** ** Subscripts, lengths and numbers of Python values *)

(** [v[i]]: lists and strings are subscriptable, nothing else is. *)
Definition subscript (v : pyval) (i : Z) : result pyval :=
  match v with
  | VList l => getitem_Z l i
  | VStr s => (λ c, VStr (String c EmptyString)) <$> getitem_Z (String.list_ascii_of_string s) i
  | _ => Raise TypeError
  end.

Definition py_len (v : pyval) : result nat :=
  match v with
  | VList l => Ok (length l)
  | VStr s => Ok (String.length s)
  | _ => Raise TypeError
  end.

(** The operand of an arithmetic operator. *)
Definition as_number (v : pyval) : result Qc :=
  match v with
  | VInt z => Ok (Qc_of_Z z)
  | VFloat q => Ok q
  | _ => Raise TypeError
  end.

Fixpoint filterM {A} (f : A → result bool) (l : list A) : result (list A) :=
  match l with
  | [] => Ok []
  | x :: l' =>
      b ← f x;
      k ← filterM f l';
      Ok (if b : bool then x :: k else k)
  end.

(** ** Trained models and the outside world *)

Abbreviation matrix := (list (list Qc)).

(** What a fitted scikit-learn estimator exposes to this code. *)
Record artifact : Type := Artifact {
  n_components : nat;
  components_ : matrix;
}.

Inductive estimator : Set := LatentDirichletAllocation | NMF.

Class External : Type := {
  (** [sobol_seq.i4_sobol_generate(dim, n)]: the rows of the result. *)
  i4_sobol_generate : nat → nat → list (list Qc);
  (** The estimator built from [sample] and fitted on [data]; the last
      argument counts the fits
      made so far and stands for the estimator's own randomness. *)
  fit : estimator → config → matrix → nat → result artifact;
  (** [numpy.ndarray.argsort]. *)
  argsort : list Qc → list nat;
  (** The statistic of [scipy.stats.kendalltau] and [spearmanr]. *)
  kendalltau : list nat → list nat → float64;
  spearmanr : list nat → list nat → float64;
  jensenshannon : list float64 → list float64 → float64;
  wasserstein_distance : list float64 → list float64 → float64;
  (** numpy reductions of a non-empty vector; [np_mean] and [np_std] of an
      empty one are NaN (with a warning). *)
  np_mean : list float64 → float64;
  np_std : list float64 → float64;
  np_min : list float64 → float64;
  np_max : list float64 → float64;
}.

(** [np.array(rows)] of nested lists: a ragged nesting is refused (as numpy
    does since 1.24; before, the failure came at the first subscript). *)
Definition rectangular {A} (rows : list (list A)) : bool :=
  match rows with
  | [] => true
  | r :: rest => forallb (λ r', bool_decide (length r' = length r)) rest
  end.

Definition np_array3 {A} (a : list (list (list A))) : result (list (list (list A))) :=
  if rectangular a && rectangular (concat a) then Ok a else Raise ValueError.

(** [a[:, topic, :]] of a three-dimensional array. *)
Definition slice_topic {A} (a : list (list (list A))) (topic : nat) : result (list (list A)) :=
  mapM (λ m, getitem m topic) a.

(** [scipy.spatial.distance.pdist(X, metric)] with a callable metric: the
    metric of every pair of rows [i < j], in row-major order. *)
Fixpoint pdist {A} (metric : A → A → result float64) (X : list A) : result (list float64) :=
  match X with
  | [] => Ok []
  | x :: rest =>
      row ← mapM (metric x) rest;
      others ← pdist metric rest;
      Ok (row ++ others)
  end.

(** [arr.mean(axis=1)], [arr.std(axis=1)], [arr.min(axis=1)] and
    [arr.max(axis=1)] of [arr = np.array(rows)], where every row has the same
    length: without rows the array is one-dimensional and has no axis 1;
    a minimum or maximum over no value is refused. *)
Definition reduce_axis1 (f : list float64 → float64) (arr : list (list float64))
    : result (list float64) :=
  match arr with
  | [] => Raise AxisError
  | _ => Ok (f <$> arr)
  end.

Definition extremum_axis1 (f : list float64 → float64) (arr : list (list float64))
    : result (list float64) :=
  match arr with
  | [] => Raise AxisError
  | _ => if forallb (λ r, bool_decide (r ≠ [])) arr then Ok (f <$> arr) else Raise ValueError
  end.

(** [sorted(l, key=..., reverse=True)] once the keys are computed: a stable
    sort, largest key first. *)
Fixpoint insert_desc {A} (k : float64) (x : A) (l : list (float64 * A)) : list (float64 * A) :=
  match l with
  | [] => [(k, x)]
  | (k', x') :: l' =>
      if f_ltb k k' then (k', x') :: insert_desc k x l' else (k, x) :: l
  end.

Definition sorted_desc {A} (l : list (float64 * A)) : list A :=
  (foldr (λ kx acc, insert_desc kx.1 kx.2 acc) [] l).*2.

(** ** Reports and the model registry *)

(** One entry of [settings["report"]]. *)
Record report : Type := Report {
  r_model : string;
  r_sample_id : nat;
  r_n_topics : nat;
  r_params : config;
  r_jaccard : float64;
  r_kendallstau : float64;
  r_spearman : float64;
  r_jensenshannon : float64;
  r_wasserstein : float64;
}.

Record stats : Type := Stats {
  s_mean : list float64;
  s_std : list float64;
  s_min : list float64;
  s_max : list float64;
}.

(** One entry of [settings["report_full"]]. *)
Record report_full : Type := ReportFull {
  rf_model : string;
  rf_sample_id : nat;
  rf_n_topics : nat;
  rf_params : config;
  rf_jaccard : stats;
  rf_kendalltau : stats;
  rf_spearman : stats;
  rf_jensenshannon : stats;
  rf_wasserstein : stats;
}.

(** The top terms of one run-group: runs, then topics, then term indices. *)
Abbreviation terms_array := (list (list (list nat))).

(** [model_informations], one value of [self.models]. *)
Record settings : Type := Settings {
  n_samples : nat;
  data : matrix;
  samples : list (list artifact);
  topic_terms : list terms_array;
  reports : list report;
  reports_full : list report_full;
  params : dict param;
  sampling : list config;
}.

Definition append_samples (s : settings) (g : list artifact) : settings :=
  Settings (n_samples s) (data s) (samples s ++ [g]) (topic_terms s)
           (reports s) (reports_full s) (params s) (sampling s).

Definition append_topic_terms (s : settings) (t : terms_array) : settings :=
  Settings (n_samples s) (data s) (samples s) (topic_terms s ++ [t])
           (reports s) (reports_full s) (params s) (sampling s).

Definition append_report (s : settings) (r : report) : settings :=
  Settings (n_samples s) (data s) (samples s) (topic_terms s)
           (reports s ++ [r]) (reports_full s) (params s) (sampling s).

Definition append_report_full (s : settings) (r : report_full) : settings :=
  Settings (n_samples s) (data s) (samples s) (topic_terms s)
           (reports s) (reports_full s ++ [r]) (params s) (sampling s).

(** The instance: the attributes [__init__] sets, and no other. *)
Record RobustTopics : Type := Self {
  n_iterations : nat;
  n_relevant_top_words : nat;
  models : dict settings;
}.

Inductive attribute : Type :=
  | AInt (n : nat)
  | AModels (m : dict settings)
  | AMethod (name : string).

(** The methods the class defines. *)
Definition methods : list string :=
  ["fit_models"; "load_sklearn_lda_data"; "load_sklearn_nmf_data";
   "_compute_param_combinations"; "_param_to_value"; "_range_to_value";
   "_list_to_value"; "_compute_topic_stability"; "rank_models"; "analyse_sample";
   "display_topics"; "_create_ranking_vectors"; "_jaccard_similarity"; "_kendalls";
   "_spear"; "_jenson_similarity"; "_wasserstein_similarity"; "_terms_to_ranking";
   "_get_top_terms"].

(** [self.<name>], the names of Python's object protocol aside: what
    [__init__] stored, or a method; the class has no other attribute. *)
Definition getattr (self : RobustTopics) (name : string) : result attribute :=
  if bool_decide (name = "n_iterations") then Ok (AInt (n_iterations self))
  else if bool_decide (name = "n_relevant_top_words") then Ok (AInt (n_relevant_top_words self))
  else if bool_decide (name = "models") then Ok (AModels (models self))
  else if bool_decide (name ∈ methods) then Ok (AMethod name)
  else Raise AttributeError.

(** ** The similarity measures written in the class *)

Definition _jaccard_similarity (a b : list nat) : result float64 :=
  let sa : gset nat := list_to_set a in
  let sb : gset nat := list_to_set b in
  truediv (size (sa ∩ sb)) (size (sa ∪ sb)).

(** [terms.index(e)], for [e] in [terms]. *)
Fixpoint index (e : nat) (terms : list nat) : nat :=
  match terms with
  | [] => 0
  | t :: terms' => if bool_decide (t = e) then 0 else S (index e terms')
  end.

Definition _terms_to_ranking (terms vocab : list nat) : list nat :=
  (λ e, if bool_decide (e ∈ terms) then index e terms else length vocab) <$> vocab.


Section Pipeline.
Context `{External}.

(** ** Parameter sampler *)

Definition _range_to_value (p_range : pyval) (sampling : Qc) (p_type : pytype) : result pyval :=
  v0 ← subscript p_range 0;
  v1 ← subscript p_range 1;
  v0' ← subscript p_range 0;
  hi ← as_number v1;
  lo' ← as_number v0';
  lo ← as_number v0;
  let value := (lo + (hi - lo') * sampling)%Qc in
  Ok (if bool_decide (p_type = t_int) then VInt (trunc value) else VFloat value).

Definition _list_to_value (p_values : pyval) (sampling : Qc) (p_type : pytype) : result pyval :=
  n ← py_len p_values;
  n' ← py_len p_values;
  subscript p_values (floor (sampling * Qc_of_nat n) `min` (Z.of_nat n' - 1))%Z.

Definition _param_to_value (param : param) (sampling : Qc) : result pyval :=
  if bool_decide (p_mode param = "range")
  then _range_to_value (p_values param) sampling (p_type param)
  else if bool_decide (p_mode param = "list")
  then _list_to_value (p_values param) sampling (p_type param)
  else Ok VNone.

(** The two inner loops of [_compute_param_combinations]. *)
Fixpoint set_changing (params : dict param) (vec : list Qc)
    (i : nat) (names : list string) (sample : config) : result config :=
  match names with
  | [] => Ok sample
  | name :: names' =>
      p ← dict_get params name;
      x ← getitem vec i;
      v ← _param_to_value p x;
      set_changing params vec (S i) names' (dict_set sample name v)
  end.

Fixpoint set_fixed (params : dict param)
    (names : list string) (sample : config) : result config :=
  match names with
  | [] => Ok sample
  | name :: names' =>
      p ← dict_get params name;
      set_fixed params names' (dict_set sample name (p_values p))
  end.

(** The two filters compare the mode with [is]; CPython interns such string
    literals, and the comparison is read as equality. *)
Definition _compute_param_combinations (params : dict param) (n_samples : nat)
    : result (list config) :=
  changing_params ←
    filterM (λ x, p ← dict_get params x; Ok (negb (bool_decide (p_mode p = "fixed"))))
            (keys params);
  fixed_params ←
    filterM (λ x, p ← dict_get params x; Ok (bool_decide (p_mode p = "fixed"))) (keys params);
  mapM (λ vec,
          sample ← set_changing params vec 0 changing_params [];
          set_fixed params fixed_params sample)
       (i4_sobol_generate (length params) n_samples).

(** ** Registering a data source *)

Definition int_range (lo hi : Z) : param := Param t_int "range" (VList [VInt lo; VInt hi]).

Definition lda_params (setup : string) (custom_params : dict param) : result (dict param) :=
  let d : result (dict param) := Raise KeyError in
  let d := if bool_decide (setup = "simple")
           then Ok [("n_components", int_range 5 50)] else d in
  let d := if bool_decide (setup = "complex")
           then Ok [("n_components", int_range 5 50);
                    ("learning_decayfloat",
                     Param t_float "range" (VList [VFloat (Q2Qc (51 # 100)); VInt 1]))]
           else d in
  if bool_decide (setup = "custom") then Ok custom_params else d.

Definition nmf_params (setup : string) (custom_params : dict param) : result (dict param) :=
  let d : result (dict param) := Raise KeyError in
  let d := if bool_decide (setup = "simple")
           then Ok [("n_components", int_range 5 50);
                    ("init", Param t_str "fixed" (VStr "random"))] else d in
  let d := if bool_decide (setup = "complex")
           then Ok [("n_components", int_range 5 50);
                    ("init", Param t_str "list"
                       (VList [VStr "random"; VStr "nndsvd"; VStr "nndsvda"; VNone]));
                    ("solver", Param t_str "fixed" (VStr "mu"));
                    ("beta_loss", Param t_str "list"
                       (VList [VStr "frobenius"; VStr "kullback-leibler"]))]
           else d in
  if bool_decide (setup = "custom") then Ok custom_params else d.

(** [load_sklearn_lda_data] and [load_sklearn_nmf_data]: [self.models] is
    written last, after the sampling succeeded. *)
Definition load_data (key : string) (ps : result (dict param))
    (self : RobustTopics) (X : matrix) (n_samples : nat) : result RobustTopics :=
  params ← ps;
  sampling ← _compute_param_combinations params n_samples;
  Ok (Self (n_iterations self) (n_relevant_top_words self)
        (dict_set (models self) key (Settings n_samples X [] [] [] [] params sampling))).

Definition load_sklearn_lda_data (self : RobustTopics) (X : matrix) (n_samples : nat)
    (setup : string) (custom_params : dict param) : result RobustTopics :=
  load_data "sklearn_lda" (lda_params setup custom_params) self X n_samples.

Definition load_sklearn_nmf_data (self : RobustTopics) (X : matrix) (n_samples : nat)
    (setup : string) (custom_params : dict param) : result RobustTopics :=
  load_data "sklearn_nmf" (nmf_params setup custom_params) self X n_samples.

(** ** Term extractor and ranking builder *)

(** [topic.argsort()[:-n_terms - 1:-1]] for every topic: the last [n_terms]
    positions of the argsort, last first. *)
Definition _get_top_terms (model : artifact) (n_terms : nat) : list (list nat) :=
  (λ topic : list Qc, take n_terms (reverse (argsort topic))) <$> components_ model.

(** The first loop of [_create_ranking_vectors]: one pass over the models of
    one run-group, then over all run-groups, growing [vocab] and the terms. *)
Definition collect_model (n_terms : nat)
    (acc : gset nat * terms_array) (model : artifact) : gset nat * terms_array :=
  let top_terms := _get_top_terms model n_terms in
  (acc.1 ∪ list_to_set (concat top_terms), acc.2 ++ [top_terms]).

Definition collect_sample (n_terms : nat)
    (acc : gset nat * list terms_array) (sample : list artifact) : gset nat * list terms_array :=
  let '(vocab, terms) := foldl (collect_model n_terms) (acc.1, []) sample in
  (vocab, acc.2 ++ [terms]).

Definition collect_terms (n_terms : nat) (samples : list (list artifact))
    : gset nat * list terms_array :=
  foldl (collect_sample n_terms) (∅, []) samples.

(** The vocabulary the second loop reads. *)
Definition vocabulary (n_terms : nat) (s : settings) : gset nat :=
  (collect_terms n_terms (samples s)).1.

(** The indices one model contributes to [vocab], and what the inner loop
    alone collects from one run-group. *)
Definition model_vocabulary (n_terms : nat) (model : artifact) : gset nat :=
  list_to_set (concat (_get_top_terms model n_terms)).

Definition group_vocabulary (n_terms : nat) (sample : list artifact) : gset nat :=
  (foldl (collect_model n_terms) (∅, []) sample).1.

Definition rankings_of (vocab_vec : list nat) (sample : terms_array) : terms_array :=
  (λ model_terms : list (list nat),
     (λ t, _terms_to_ranking t vocab_vec) <$> model_terms) <$> sample.

Definition _create_ranking_vectors (self : RobustTopics) (s : settings)
    : result (list terms_array) :=
  let '(vocab, sample_terms) := collect_terms (n_relevant_top_words self) (samples s) in
  let vocab_vec := elements vocab in
  mapM (λ sample, np_array3 (rankings_of vocab_vec sample)) sample_terms.

(** ** Similarity engine and report aggregator *)

Definition _kendalls (a b : list nat) : result float64 := Ok (kendalltau a b).
Definition _spear (a b : list nat) : result float64 := Ok (spearmanr a b).
Definition _jenson_similarity (a b : list float64) : result float64 :=
  Ok (f_sub (Fin 1) (jensenshannon a b)).
Definition _wasserstein_similarity (a b : list float64) : result float64 :=
  Ok (f_sub (Fin 1) (wasserstein_distance a b)).

(** [model.components_ / model.components_.sum(axis=1)[:, np.newaxis]]. *)
Definition term_distribution (model : artifact) : list (list float64) :=
  (λ topic : list Qc, let total := foldr Qcplus 0%Qc topic in
            (λ w, f_div (Fin w) (Fin total)) <$> topic) <$> components_ model.

(** The five pairwise vectors of one topic. *)
Record pairwise : Type := Pairwise {
  pw_jaccard : list float64;
  pw_jensen : list float64;
  pw_wasserstein : list float64;
  pw_kendalls : list float64;
  pw_spearman : list float64;
}.

(** The body of the loop [for topic in range(n_topics)]. *)
Definition evaluate_topic (terms : terms_array) (term_distributions : list (list (list float64)))
    (ranking_vecs : list terms_array) (sample_id topic : nat) : result pairwise :=
  sim ← (arr ← np_array3 terms; X ← slice_topic arr topic;
         pdist _jaccard_similarity X);
  jen ← (arr ← np_array3 term_distributions; X ← slice_topic arr topic;
         pdist _jenson_similarity X);
  wasser ← (arr ← np_array3 term_distributions; X ← slice_topic arr topic;
            pdist _wasserstein_similarity X);
  ken ← (arr ← getitem ranking_vecs sample_id; X ← slice_topic arr topic;
         pdist _kendalls X);
  spear ← (arr ← getitem ranking_vecs sample_id; X ← slice_topic arr topic;
           pdist _spear X);
  Ok (Pairwise sim jen wasser ken spear).

Definition axis_stats (arr : list (list float64)) : result stats :=
  m ← reduce_axis1 np_mean arr;
  s ← reduce_axis1 np_std arr;
  lo ← extremum_axis1 np_min arr;
  hi ← extremum_axis1 np_max arr;
  Ok (Stats m s lo hi).

(** Everything between [settings["topic_terms"].append(...)] and the two
    final appends of one pass of the loop over the run-groups. *)
Definition build_reports (name : string) (s : settings) (terms : terms_array)
    (term_distributions : list (list (list float64))) (ranking_vecs : list terms_array)
    (sample_id n_topics : nat) : result (report * report_full) :=
  pws ← mapM (evaluate_topic terms term_distributions ranking_vecs sample_id) (seq 0 n_topics);
  let kendalls_ranking := pw_kendalls <$> pws in
  let spearman_ranking := pw_spearman <$> pws in
  let jaccard_similarity := pw_jaccard <$> pws in
  let jensen_similarity := pw_jensen <$> pws in
  let wasserstein_similarity := pw_wasserstein <$> pws in
  ps ← getitem (sampling s) sample_id;
  let r := Report name sample_id n_topics ps
             (np_mean (concat jaccard_similarity)) (np_mean (concat kendalls_ranking))
             (np_mean (concat spearman_ranking)) (np_mean (concat jensen_similarity))
             (np_mean (concat wasserstein_similarity)) in
  ps' ← getitem (sampling s) sample_id;
  jac ← axis_stats jaccard_similarity;
  ken ← axis_stats kendalls_ranking;
  spe ← axis_stats spearman_ranking;
  jen ← axis_stats jensen_similarity;
  was ← axis_stats wasserstein_similarity;
  Ok (r, ReportFull name sample_id n_topics ps' jac ken spe jen was).

(** One pass of the loop over [enumerate(settings["samples"])]: the settings
    as the pass leaves them, and whether it raised. *)
Definition stability_of_sample (self : RobustTopics) (name : string)
    (ranking_vecs : list terms_array) (s : settings) (sample_id : nat)
    (sample : list artifact) : result unit * settings :=
  match getitem sample 0 with
  | Raise e => (Raise e, s)
  | Ok first =>
      let n_topics := n_components first in
      let terms := (λ model, _get_top_terms model (n_relevant_top_words self)) <$> sample in
      let term_distributions := term_distribution <$> sample in
      match np_array3 terms with
      | Raise e => (Raise e, s)
      | Ok arr =>
          let s1 := append_topic_terms s arr in
          match build_reports name s1 terms term_distributions ranking_vecs sample_id n_topics with
          | Raise e => (Raise e, s1)
          | Ok (r, rf) => (Ok (), append_report_full (append_report s1 r) rf)
          end
      end
  end.

(** The loop over the run-groups; [todo] is what is left of
    [settings["samples"]], [sample_id] the position of its head. *)
Fixpoint stability_of_samples (self : RobustTopics) (name : string)
    (ranking_vecs : list terms_array) (s : settings) (sample_id : nat)
    (todo : list (list artifact)) : result unit * settings :=
  match todo with
  | [] => (Ok (), s)
  | sample :: todo' =>
      match stability_of_sample self name ranking_vecs s sample_id sample with
      | (Raise e, s') => (Raise e, s')
      | (Ok _, s') => stability_of_samples self name ranking_vecs s' (S sample_id) todo'
      end
  end.

Definition stability_of_settings (self : RobustTopics) (name : string) (s : settings)
    : result unit * settings :=
  match _create_ranking_vectors self s with
  | Raise e => (Raise e, s)
  | Ok ranking_vecs => stability_of_samples self name ranking_vecs s 0 (samples s)
  end.

(** The loop over [self.models.items()]: every value is updated in place. *)
Fixpoint stability_of_models (self : RobustTopics) (todo : dict settings)
    : result unit * dict settings :=
  match todo with
  | [] => (Ok (), [])
  | (name, s) :: todo' =>
      match stability_of_settings self name s with
      | (Raise e, s') => (Raise e, (name, s') :: todo')
      | (Ok _, s') =>
          let '(r, rest) := stability_of_models self todo' in (r, (name, s') :: rest)
      end
  end.

Definition with_models (self : RobustTopics) (m : dict settings) : RobustTopics :=
  Self (n_iterations self) (n_relevant_top_words self) m.

Definition _compute_topic_stability (self : RobustTopics) : result unit * RobustTopics :=
  let '(r, m) := stability_of_models self (models self) in (r, with_models self m).

(** ** Model run orchestrator *)

(** [if <test>: model_iterations.append(Estimator(kwargs).fit(data))]. *)
Definition fit_if (test : bool) (est : estimator) (sample : config) (X : matrix)
    (model_iterations : list artifact) (calls : nat) : result (list artifact) * nat :=
  if test then
    match fit est sample X calls with
    | Raise e => (Raise e, S calls)
    | Ok model => (Ok (model_iterations ++ [model]), S calls)
    end
  else (Ok model_iterations, calls).

(** [n] passes of the loop [for it in range(1, self.n_iterations+1)]. *)
Fixpoint fit_iterations (name : string) (sample : config) (X : matrix) (n : nat)
    (model_iterations : list artifact) (calls : nat) : result (list artifact) * nat :=
  match n with
  | 0 => (Ok model_iterations, calls)
  | S n' =>
      match fit_if (bool_decide (name = "sklearn_lda")) LatentDirichletAllocation
                   sample X model_iterations calls with
      | (Raise e, calls1) => (Raise e, calls1)
      | (Ok its1, calls1) =>
          match fit_if (bool_decide (name = "sklearn_nmf")) NMF sample X its1 calls1 with
          | (Raise e, calls2) => (Raise e, calls2)
          | (Ok its2, calls2) => fit_iterations name sample X n' its2 calls2
          end
      end
  end.

(** The loop [for sample in settings["sampling"]]. *)
Fixpoint fit_samples (self : RobustTopics) (name : string) (s : settings)
    (todo : list config) (calls : nat) : result unit * settings * nat :=
  match todo with
  | [] => (Ok (), s, calls)
  | sample :: todo' =>
      match fit_iterations name sample (data s) (n_iterations self) [] calls with
      | (Raise e, calls') => (Raise e, s, calls')
      | (Ok model_iterations, calls') =>
          fit_samples self name (append_samples s model_iterations) todo' calls'
      end
  end.

(** The loop [for name, settings in self.models.items()]. *)
Fixpoint fit_all (self : RobustTopics) (todo : dict settings) (calls : nat)
    : result unit * dict settings * nat :=
  match todo with
  | [] => (Ok (), [], calls)
  | (name, s) :: todo' =>
      match fit_samples self name s (sampling s) calls with
      | (Raise e, s', calls') => (Raise e, (name, s') :: todo', calls')
      | (Ok _, s', calls') =>
          let '(r, rest, calls'') := fit_all self todo' calls' in
          (r, (name, s') :: rest, calls'')
      end
  end.

(** [fit_models]: the object as the call leaves it, whether it raised, and
    the number of fits made so far. *)
Definition fit_models (self : RobustTopics) (calls : nat) : result unit * RobustTopics * nat :=
  match fit_all self (models self) calls with
  | (Raise e, m, calls') => (Raise e, with_models self m, calls')
  | (Ok _, m, calls') =>
      let '(r, self') := _compute_topic_stability (with_models self m) in
      (r, self', calls')
  end.

(** ** Ranking and inspection *)

(** [s[k]] for a key that is not a string: no such key, or not hashable. *)
Definition report_item (s : report) (k : attribute) : result float64 :=
  match k with
  | AInt _ | AMethod _ => Raise KeyError
  | AModels _ => Raise TypeError
  end.

Definition np_sum (l : list float64) : float64 := foldl f_add (Fin 0) l.

(** The [key] function of [rank_models]. *)
Definition rank_key (self : RobustTopics) (weights : list float64) (s : report) : result float64 :=
  let jac := r_jaccard s in
  w0 ← getitem weights 0;
  rank_metric ← getattr self "rank_metric";
  rnk ← report_item s rank_metric;
  w1 ← getitem weights 1;
  distribution_metric ← getattr self "distribution_metric";
  dst ← report_item s distribution_metric;
  w2 ← getitem weights 2;
  Ok (f_div (f_add (f_add (f_mul jac w0) (f_mul rnk w1)) (f_mul dst w2)) (np_sum weights)).

Definition all_reports (self : RobustTopics) : list report :=
  foldl (λ acc kv, acc ++ reports kv.2) [] (models self).

Definition rank_models (self : RobustTopics) (weights : list float64)
    (ranking : dict nat) : result (list report) :=
  ks ← mapM (rank_key self weights) (all_reports self);
  Ok (sorted_desc (zip ks (all_reports self))).

(** [inter.intersection_update(set(list(terms[topic])))], for one run. *)
Definition intersect_step (topic : nat) (acc : result (gset nat))
    (terms : list (list nat)) : result (gset nat) :=
  inter ← acc;
  t ← getitem terms topic;
  Ok (inter ∩ list_to_set t).

(** The inner loop of [analyse_sample] for one topic: the set [inter]. *)
Definition topic_intersection (tt : terms_array) (topic : nat) : result (gset nat) :=
  run ← getitem tt topic;
  start ← getitem run 0;
  foldl (intersect_step topic) (Ok (list_to_set start)) tt.

Definition join (sep : string) (l : list string) : string :=
  match l with
  | [] => EmptyString
  | x :: l' => foldl (λ acc y, acc +:+ sep +:+ y) x l'
  end.

(** [analyse_sample]: the lines printed. *)
Definition analyse_sample (self : RobustTopics) (model : string) (sample_id : nat)
    (feature_names : list string) : result (list string) :=
  s ← dict_get (models self) model;
  group ← getitem (samples s) sample_id;
  first ← getitem group 0;
  lines ← mapM (λ topic,
                  s' ← dict_get (models self) model;
                  tt ← getitem (topic_terms s') sample_id;
                  inter ← topic_intersection tt topic;
                  names ← mapM (getitem feature_names) (elements inter);
                  Ok ["Topic: " +:+ pretty topic; join " " names])
               (seq 0 (length (components_ first)));
  Ok ("Intersecting words for each topic" :: concat lines).

(** [display_topics]: the lines printed. *)
Definition display_topics (self : RobustTopics) (model : string) (sample_id model_number : nat)
    (feature_names : list string) (no_top_words : nat) : result (list string) :=
  s ← dict_get (models self) model;
  group ← getitem (samples s) sample_id;
  run ← getitem group model_number;
  lines ← mapM (λ it : nat * list Qc,
                  names ← mapM (getitem feature_names)
                               (take no_top_words (reverse (argsort it.2)));
                  Ok ["Topic " +:+ pretty it.1 +:+ ":"; join " " names])
               (zip (seq 0 (length (components_ run))) (components_ run));
  Ok (concat lines).

End Pipeline.

Local Close Scope string_scope.

(** ** Stand-ins for the outside world, for concrete runs

    A [scripted] world answers the [k]-th fit with the [k]-th entry of a
    script.  Its sampler, sorting and reductions are small exact versions of
    the library functions; the four scipy statistics are constant, since no
    statement below reads their values. *)

Fixpoint insert_by_weight (w : Qc) (i : nat) (l : list (Qc * nat)) : list (Qc * nat) :=
  match l with
  | [] => [(w, i)]
  | (w', i') :: l' =>
      if bool_decide (w < w')%Qc then (w, i) :: l else (w', i') :: insert_by_weight w i l'
  end.

(** A stable ascending argsort. *)
Definition stable_argsort (topic : list Qc) : list nat :=
  (foldr (λ wi acc, insert_by_weight wi.1 wi.2 acc) [] (zip topic (seq 0 (length topic)))).*2.

(** [n] evenly spread points of the unit cube, all coordinates alike. *)
Definition midpoint_generate (dim n : nat) : list (list Qc) :=
  (λ j, replicate dim (Qc_of_nat (2 * j + 1) / Qc_of_nat (2 * n))%Qc) <$> seq 0 n.

Definition mean_of (l : list float64) : float64 :=
  f_div (foldl f_add (Fin 0) l) (Fin (Qc_of_nat (length l))).

Definition least_of (l : list float64) : float64 :=
  foldl (λ m x, if f_ltb x m then x else m) (default NaN (head l)) l.

Definition greatest_of (l : list float64) : float64 :=
  foldl (λ m x, if f_ltb m x then x else m) (default NaN (head l)) l.

Definition scripted (script : list (result artifact)) : External := {|
  i4_sobol_generate := midpoint_generate;
  fit := λ _ _ _ calls, default (Raise (ExternalError 0)) (script !! calls);
  argsort := stable_argsort;
  kendalltau := λ _ _, Fin 0;
  spearmanr := λ _ _, Fin 0;
  jensenshannon := λ _ _, Fin 0;
  wasserstein_distance := λ _ _, Fin 0;
  np_mean := mean_of;
  np_std := λ l, match l with [] => NaN | _ => Fin 0 end;
  np_min := least_of;
  np_max := greatest_of;
|}.

(** ** Concrete inputs *)

(** One topic over three features; the heaviest feature is named. *)
Definition topic_on (feature : nat) : artifact :=
  Artifact 1 [(λ i, Qc_of_nat (if bool_decide (i = feature) then 5 else i)) <$> [0; 1; 2]].

(** A family with two run-groups of two runs: the runs of the first group
    put feature 0 on top, those of the second feature 2. *)
Definition two_groups : settings :=
  Settings 2 [] [[topic_on 0; topic_on 0]; [topic_on 2; topic_on 2]] [] [] []
    [("n_components"%string, Param t_int "fixed" (VInt 1))]
    [[("n_components"%string, VInt 1)]; [("n_components"%string, VInt 1)]].

(** The length of every rank vector of every run of every run-group. *)
Definition vector_lengths (a : list terms_array) : list (list (list nat)) :=
  List.map (List.map (List.map (@length nat))) a.

(** A run with two topics over four features: feature 1 leads the first
    topic, feature 3 the second. *)
Definition two_topics : artifact :=
  Artifact 2 [Qc_of_nat <$> [1; 9; 2; 3]; Qc_of_nat <$> [1; 2; 3; 9]].

(** A world whose first two fits both return [two_topics]. *)
Definition stable_world : External := scripted [Ok two_topics; Ok two_topics].

(** One LDA configuration with [n_components] fixed to 2, fitted twice,
    keeping one top word per topic; [fit_models] has returned. *)
Definition fitted : result unit * RobustTopics * nat :=
  match load_sklearn_lda_data (H:=stable_world) (Self 2 1 []) [] 1 "custom"
          [("n_components"%string, Param t_int "fixed" (VInt 2))] with
  | Ok self => fit_models (H:=stable_world) self 0
  | Raise e => (Raise e, Self 2 1 [], 0)
  end.

Definition fitted_self : RobustTopics := fitted.1.2.

(** The default arguments of [rank_models]. *)
Definition default_weights : list float64 := [Fin 1; Fin 1; Fin 1].
Definition default_ranking : dict nat :=
  [("jensenshannon"%string, 1); ("jaccard"%string, 1); ("kendalltau"%string, 1)].

Definition four_names : list string := ["a"; "b"; "c"; "d"]%string.

(** ** Well-formed parameter spaces *)

Section Shapes.
Context `{External}.
Local Open Scope string_scope.

(** The points the sampler receives for [dim] parameters and [n] samples
    are [n] points of the [dim]-dimensional unit cube. *)
Definition unit_cube_points (dim n : nat) : Prop :=
  length (i4_sobol_generate dim n) = n
  ∧ Forall (λ vec, length vec = dim ∧ Forall (λ x, 0 ≤ x ≤ 1)%Qc vec)
           (i4_sobol_generate dim n).

Definition is_int (v : pyval) : Prop := ∃ z, v = VInt z.

(** [values] is [[min, max]] with numbers [lo ≤ hi], integers when the
    declared type is [int]. *)
Definition range_shape (p : param) (lo hi : Qc) : Prop :=
  ∃ a b, p_values p = VList [a; b] ∧ as_number a = Ok lo ∧ as_number b = Ok hi
         ∧ (lo ≤ hi)%Qc ∧ (p_type p = t_int → is_int a ∧ is_int b).

Definition list_shape (p : param) (l : list pyval) : Prop :=
  p_values p = VList l ∧ l ≠ [].

Definition known_mode (p : param) : Prop :=
  p_mode p = "fixed" ∨ p_mode p = "range" ∨ p_mode p = "list".

Definition valid_param (p : param) : Prop :=
  p_mode p = "fixed"
  ∨ (p_mode p = "range" ∧ ∃ lo hi, range_shape p lo hi)
  ∨ (p_mode p = "list" ∧ ∃ l, list_shape p l).

(** A parameter the sampler can process: a valid one, or one whose mode is
    none of the three. *)
Definition processable (p : param) : Prop := valid_param p ∨ ¬ known_mode p.

(** [params] is a dictionary (no key twice) of valid parameters. *)
Definition valid_space (params : dict param) : Prop :=
  NoDup (keys params) ∧ Forall (λ kv, valid_param kv.2) params.

End Shapes.

(** [v] is what [_param_to_value] returns for [p] at some coordinate of the
    unit interval. *)
Definition drawn `{External} (p : param) (v : pyval) : Prop :=
  ∃ x, (0 ≤ x ≤ 1)%Qc ∧ _param_to_value p x = Ok v.

(** The test of the filter that selects [fixed_params]. *)
Definition is_fixed (params : dict param) (x : string) : bool :=
  match dict_get params x with
  | Ok p => bool_decide (p_mode p = "fixed"%string)
  | Raise _ => false
  end.

(** What a sampled configuration holds for parameter [p]. *)
Definition sampled `{External} (p : param) (v : pyval) : Prop :=
  if bool_decide (p_mode p = "fixed"%string) then v = p_values p else drawn p v.

(** The "complex" NMF preset, and a space with a misspelt mode. *)
Definition nmf_complex : dict param :=
  [("n_components", int_range 5 50);
   ("init", Param t_str "list" (VList [VStr "random"; VStr "nndsvd"; VStr "nndsvda"; VNone]));
   ("solver", Param t_str "fixed" (VStr "mu"));
   ("beta_loss", Param t_str "list" (VList [VStr "frobenius"; VStr "kullback-leibler"]))]%string.

Definition misspelt_param : param := Param t_int "rnage" (VList [VInt 5; VInt 50]).
Definition misspelt_space : dict param := [("n_components"%string, misspelt_param)].

(** ** What a call may change *)

(** [s'] is [s] with more entries at the end of its four growing lists and
    nothing else changed. *)
Definition extends (s s' : settings) : Prop :=
  params s' = params s ∧ sampling s' = sampling s
  ∧ n_samples s' = n_samples s ∧ data s' = data s
  ∧ samples s `prefix_of` samples s'
  ∧ topic_terms s `prefix_of` topic_terms s'
  ∧ reports s `prefix_of` reports s'
  ∧ reports_full s `prefix_of` reports_full s'.

(** The same families under the same names, each one extended. *)
Definition models_extend (m m' : dict settings) : Prop :=
  Forall2 (λ kv kv', kv'.1 = kv.1 ∧ extends kv.2 kv'.2) m m'.

(** [s] after the run-groups [groups] were appended to [settings["samples"]]. *)
Definition add_groups (s : settings) (groups : list (list artifact)) : settings :=
  foldl append_samples s groups.

(** How many estimators [fit_models] fits per iteration for a family name. *)
Definition fits_per_iteration (name : string) : nat :=
  (if bool_decide (name = "sklearn_lda"%string) then 1 else 0)
  + (if bool_decide (name = "sklearn_nmf"%string) then 1 else 0).

(** [group] is a complete run-group of configuration [cfg]: the artifacts of
    [n] iterations, each returned by a fit of [cfg] on [X]. *)
Definition run_group_of `{External} (name : string) (n : nat) (X : matrix)
    (cfg : config) (group : list artifact) : Prop :=
  length group = n * fits_per_iteration name
  ∧ Forall (λ a, ∃ est k, fit est cfg X k = Ok a) group.

(** A family after [fit_models] went through all its configurations: one
    complete run-group was appended per configuration. *)
Definition fully_fitted `{External} (self : RobustTopics)
    (kv kv' : string * settings) : Prop :=
  kv'.1 = kv.1
  ∧ ∃ groups, kv'.2 = add_groups kv.2 groups
      ∧ Forall2 (run_group_of kv.1 (n_iterations self) (data kv.2)) (sampling kv.2) groups.

(** The registry [m] a failing fit leaves behind, starting from [todo]: the
    families before the failing one are fully fitted, the failing family got
    complete run-groups for the configurations before the failing one and
    nothing for the failing configuration or those after it, and the families
    after it are untouched. *)
Definition interrupted `{External} (self : RobustTopics) (todo m : dict settings) : Prop :=
  ∃ before name s groups after before',
    todo = before ++ (name, s) :: after
    ∧ m = before' ++ (name, add_groups s groups) :: after
    ∧ Forall2 (fully_fitted self) before before'
    ∧ length groups < length (sampling s)
    ∧ Forall2 (run_group_of name (n_iterations self) (data s))
              (take (length groups) (sampling s)) groups.

(** The stored reports and top terms are the same in [m'] as in [m]. *)
Definition same_reports (m m' : dict settings) : Prop :=
  Forall2 (λ kv kv', topic_terms kv'.2 = topic_terms kv.2
                     ∧ reports kv'.2 = reports kv.2
                     ∧ reports_full kv'.2 = reports_full kv.2) m m'.





(** One configuration fitted once: a run-group of a single run. *)
Definition single_run_settings : settings :=
  Settings 1 [] [[two_topics]] [] [] []
    [("n_components"%string, Param t_int "fixed" (VInt 2))]
    [[("n_components"%string, VInt 2)]].

Definition single_run : RobustTopics := Self 1 1 [("sklearn_lda"%string, single_run_settings)].

(** ** What is asked of an argsort *)

Definition weight_of (topic : list Qc) (i : nat) : Qc := default 0%Qc (topic !! i).

(** [order] lists every position of [topic] once, lightest first. *)
Definition argsort_of (topic : list Qc) (order : list nat) : Prop :=
  order ≡ₚ seq 0 (length topic) ∧ StronglySorted Qcle (weight_of topic <$> order).

Global Instance argsort_of_dec topic order : Decision (argsort_of topic order).
Proof. unfold argsort_of. apply _. Defined.

(** A range that lacks its upper bound. *)
Definition short_range_space : dict param :=
  [("n_components"%string, Param t_int "range" (VList [VInt 5]))].

(** [RobustTopics(n_iterations, n_relevant_top_words)]: the defaults are 10
    and 20. *)
Definition __init__ (n_iterations n_relevant_top_words : nat) : RobustTopics :=
  Self n_iterations n_relevant_top_words [].

(** What [load_sklearn_*_data] stores for a parameter space and its
    sampling: no run-group, no top terms, no report. *)
Definition fresh_settings (n : nat) (X : matrix) (ps : dict param)
    (sampling : list config) : settings :=
  Settings n X [] [] [] [] ps sampling.

(** The setups the two loaders know. *)
Definition known_setup (setup : string) : Prop :=
  setup = "simple"%string ∨ setup = "complex"%string ∨ setup = "custom"%string.

(** The number of fits [fit_models] makes when none of them raises. *)
Definition planned_fits (self : RobustTopics) (m : dict settings) : nat :=
  sum_list ((λ kv : string * settings,
               length (sampling kv.2) * (n_iterations self * fits_per_iteration kv.1)) <$> m).

(** A family the fitting loop went through: one complete run-group per
    configuration was appended to its run-groups. *)
Definition refitted `{External} (self : RobustTopics) (kv kv' : string * settings) : Prop :=
  kv'.1 = kv.1
  ∧ ∃ groups, samples kv'.2 = samples kv.2 ++ groups
      ∧ Forall2 (run_group_of kv.1 (n_iterations self) (data kv.2)) (sampling kv.2) groups.

(** The context [fitted] starts from: one LDA configuration with
    [n_components] fixed to 2, to be fitted twice. *)
Definition loaded_one : RobustTopics :=
  Self 2 1 [("sklearn_lda"%string,
             fresh_settings 1 [] [("n_components"%string, Param t_int "fixed" (VInt 2))]
               [[("n_components"%string, VInt 2)]])].

(** The same configuration, to be fitted once only. *)
Definition loaded_once : RobustTopics :=
  Self 1 1 (models loaded_one).

(** A family holding two run-groups but a single configuration. *)
Definition overfull : settings :=
  Settings 2 [] (samples two_groups) [] [] [] (params two_groups) (take 1 (sampling two_groups)).

(** The context [fit_models] hands to [_compute_topic_stability] in the run
    that gave [fitted]: the runs are stored, nothing is assessed yet. *)
Definition fitted_unassessed : RobustTopics :=
  with_models loaded_one (fit_all (H:=stable_world) loaded_one (models loaded_one) 0).1.2.

(** ** What a report says

    The heading of the report of run-group [sample_id] of family [name]:
    the entries [model], [sample_id], [n_topics] and [params]. *)
Definition heading (name : string) (s : settings) (sample_id : nat)
    (model : string) (id n_topics : nat) (ps : config) : Prop :=
  model = name ∧ id = sample_id
  ∧ sampling s !! sample_id = Some ps
  ∧ ∃ group first, samples s !! sample_id = Some group ∧ group !! 0 = Some first
      ∧ n_topics = n_components first.

(** One value per topic in each of the four statistics. *)
Definition per_topic (n_topics : nat) (st : stats) : Prop :=
  length (s_mean st) = n_topics ∧ length (s_std st) = n_topics
  ∧ length (s_min st) = n_topics ∧ length (s_max st) = n_topics.

Definition report_of (name : string) (s : settings) (sample_id : nat)
    (rr : report * report_full) : Prop :=
  heading name s sample_id (r_model rr.1) (r_sample_id rr.1) (r_n_topics rr.1) (r_params rr.1)
  ∧ heading name s sample_id
      (rf_model rr.2) (rf_sample_id rr.2) (rf_n_topics rr.2) (rf_params rr.2)
  ∧ 0 < rf_n_topics rr.2
  ∧ per_topic (rf_n_topics rr.2) (rf_jaccard rr.2)
  ∧ per_topic (rf_n_topics rr.2) (rf_kendalltau rr.2)
  ∧ per_topic (rf_n_topics rr.2) (rf_spearman rr.2)
  ∧ per_topic (rf_n_topics rr.2) (rf_jensenshannon rr.2)
  ∧ per_topic (rf_n_topics rr.2) (rf_wasserstein rr.2).

(** The top terms of every run of a run-group. *)
Definition group_terms `{External} (self : RobustTopics) (group : list artifact) : terms_array :=
  (λ model, _get_top_terms model (n_relevant_top_words self)) <$> group.

(** A family the stability computation went through: per run-group, in
    order, one more array of top terms, one more report and one more full
    report. *)
Definition assessed `{External} (self : RobustTopics) (kv kv' : string * settings) : Prop :=
  kv'.1 = kv.1
  ∧ samples kv'.2 = samples kv.2
  ∧ topic_terms kv'.2 = topic_terms kv.2 ++ (group_terms self <$> samples kv.2)
  ∧ ∃ rrs : list (report * report_full),
      reports kv'.2 = reports kv.2 ++ rrs.*1
      ∧ reports_full kv'.2 = reports_full kv.2 ++ rrs.*2
      ∧ length rrs = length (samples kv.2)
      ∧ ∀ i rr, rrs !! i = Some rr → report_of kv.1 kv.2 i rr.

(** The number of unordered pairs of [n] runs, doubled. *)
Definition twice_pairs (n : nat) : nat := n * (n - 1).

Global Instance pairwise_eq_dec : EqDecision pairwise.
Proof. solve_decision. Defined.

(** The first topic of the two runs of [fitted], compared pairwise. *)
Definition two_runs : list artifact := [two_topics; two_topics].

Definition first_topic_pairs : result pairwise :=
  evaluate_topic (H:=stable_world) [[[1]; [3]]; [[1]; [3]]] (term_distribution <$> two_runs)
    [[[[0; 2]; [2; 0]]; [[0; 2]; [2; 0]]]] 0 0.

(** What [fit_models] leaves behind when it ran with a single iteration:
    one run with two topics, and its top terms. *)
Definition one_run_two_topics : settings :=
  append_topic_terms single_run_settings [[[1]; [3]]].

(** The runs of a run-group all have the same number of topics. *)
Definition same_topics (group : list artifact) : Prop :=
  ∀ m m', m ∈ group → m' ∈ group → length (components_ m) = length (components_ m').

(** * Properties *)

(** ** Arithmetic of small quotients *)

Lemma Qc_of_nat_0 : Qc_of_nat 0 = 0%Qc.
Proof. apply Z2Qc_inj_0. Qed.

Lemma Qc_of_nat_pos n : n ≠ 0 → (0 < Qc_of_nat n)%Qc.
Proof.
  intros Hn. unfold Qc_of_nat. rewrite <- Z2Qc_inj_0.
  apply (proj1 (Z2Qc_inj_lt 0 (Z.of_nat n))). lia.
Qed.

Lemma Qc_of_nat_le n m : n ≤ m → (Qc_of_nat n ≤ Qc_of_nat m)%Qc.
Proof.
  intros Hnm. unfold Qc_of_nat.
  apply (proj1 (Z2Qc_inj_le (Z.of_nat n) (Z.of_nat m))). lia.
Qed.

Lemma Qc_of_nat_nonneg n : (0 ≤ Qc_of_nat n)%Qc.
Proof. rewrite <- Qc_of_nat_0. apply Qc_of_nat_le. lia. Qed.

Lemma quotient_unit_interval i u :
  i ≤ u → u ≠ 0 → (0 ≤ Qc_of_nat i / Qc_of_nat u ≤ 1)%Qc.
Proof.
  intros Hiu Hu. pose proof (Qc_of_nat_pos u Hu) as Hpos. split.
  - apply Qcmult_nonneg_nonneg; [apply Qc_of_nat_nonneg|].
    apply Qclt_le_weak, Qcinv_pos, Hpos.
  - apply (Qcmult_le_mono_pos_r _ _ (Qc_of_nat u) Hpos).
    rewrite Qcmult_1_l, test_field; [by apply Qc_of_nat_le|].
    intros Heq. rewrite Heq in Hpos. by apply Qclt_not_eq in Hpos.
Qed.

Lemma quotient_self u : u ≠ 0 → (Qc_of_nat u / Qc_of_nat u = 1)%Qc.
Proof.
  intros Hu. apply Qcmult_inv_r. intros Heq.
  pose proof (Qc_of_nat_pos u Hu) as Hpos. rewrite Heq in Hpos.
  by apply Qclt_not_eq in Hpos.
Qed.

Lemma quotient_zero u : (Qc_of_nat 0 / Qc_of_nat u = 0)%Qc.
Proof. rewrite Qc_of_nat_0. apply Qcmult_0_l. Qed.

(** ** Jaccard similarity *)

Section Jaccard.
Implicit Types a b : list nat.

Lemma union_size_nonzero a b : a ≠ [] → size (list_to_set a ∪ list_to_set b : gset nat) ≠ 0.
Proof.
  destruct a as [|x a]; [done|]. intros _ Hsz.
  apply size_empty_iff in Hsz. apply (not_elem_of_empty (C:=gset nat) x).
  rewrite <- Hsz, elem_of_union, elem_of_list_to_set. left. apply list_elem_of_here.
Qed.

Lemma jaccard_value a b :
  a ≠ [] →
  _jaccard_similarity a b =
    Ok (Fin (Qc_of_nat (size (list_to_set a ∩ list_to_set b : gset nat))
             / Qc_of_nat (size (list_to_set a ∪ list_to_set b : gset nat)))).
Proof.
  intros Ha. unfold _jaccard_similarity, truediv.
  rewrite bool_decide_eq_false_2; [done|]. by apply union_size_nonzero.
Qed.

Lemma jaccard_comm a b : _jaccard_similarity a b = _jaccard_similarity b a.
Proof.
  unfold _jaccard_similarity.
  by rewrite (comm_L (∩) (list_to_set a)), (comm_L (∪) (list_to_set a)).
Qed.

End Jaccard.

(** C9. For non-empty term lists [a] and [b], [_jaccard_similarity] is
    symmetric and returns a value of the interval [0, 1]; it is exactly 1
    when the two lists hold the same terms and exactly 0 when they share
    none. *)
Theorem jaccard_similarity_spec (a b : list nat) :
  a ≠ [] → b ≠ [] →
  _jaccard_similarity a b = _jaccard_similarity b a
  ∧ (∃ q, _jaccard_similarity a b = Ok (Fin q) ∧ (0 ≤ q ≤ 1)%Qc)
  ∧ ((∀ x, x ∈ a ↔ x ∈ b) → _jaccard_similarity a b = Ok (Fin 1))
  ∧ ((∀ x, x ∈ a → x ∉ b) → _jaccard_similarity a b = Ok (Fin 0)).
Proof.
  intros Ha Hb. pose proof (union_size_nonzero a b Ha) as Hu.
  split; [apply jaccard_comm|]. rewrite jaccard_value by done.
  split; [|split].
  - eexists; split; [done|]. apply quotient_unit_interval; [|done].
    apply subseteq_size. intros x. rewrite elem_of_intersection, elem_of_union. tauto.
  - intros Heq.
    assert (list_to_set a ≡ (list_to_set b : gset nat)) as Hab.
    { intros x. rewrite !elem_of_list_to_set. apply Heq. }
    apply leibniz_equiv in Hab.
    revert Hu. rewrite Hab.
    assert (∀ X : gset nat, X ∩ X = X) as -> by (intros; apply intersection_idemp_L).
    assert (∀ X : gset nat, X ∪ X = X) as -> by (intros; apply union_idemp_L).
    intros Hu. do 2 f_equal. by apply quotient_self.
  - intros Hdisj.
    assert (list_to_set a ∩ list_to_set b ≡ (∅ : gset nat)) as Hemp.
    { intros x. rewrite elem_of_intersection, !elem_of_list_to_set, elem_of_empty.
      split; [intros [Hxa Hxb]; by apply (Hdisj x)|done]. }
    apply leibniz_equiv in Hemp. rewrite Hemp.
    rewrite size_empty. do 2 f_equal. apply quotient_zero.
Qed.

(** Scenarios B and C of the specification, at the lists it names. *)
Lemma jaccard_similarity_spec_witness :
  [3; 7; 1] ≠ [] ∧ [3; 7; 1] ≠ []
  ∧ _jaccard_similarity [3; 7; 1] [3; 7; 1] = Ok (Fin 1).
Proof.
  split; [done|]. split; [done|].
  apply (jaccard_similarity_spec [3; 7; 1] [3; 7; 1]); done.
Defined.

Example jaccard_disjoint_lists : _jaccard_similarity [1; 2; 3] [4; 5; 6] = Ok (Fin 0).
Proof. apply (bool_decide_unpack _). by vm_compute. Qed.

(** ** Rank vectors *)

Lemma index_first (e : nat) (terms : list nat) :
  e ∈ terms →
  terms !! index e terms = Some e ∧ ∀ j, j < index e terms → terms !! j ≠ Some e.
Proof.
  induction terms as [|t terms IH]; intros Hin; [by apply elem_of_nil in Hin|].
  simpl. case_bool_decide as Ht.
  - subst t. split; [done|]. intros j Hj. lia.
  - apply elem_of_cons in Hin as [->|Hin]; [done|].
    destruct (IH Hin) as [Hat Hbefore]. split; [done|].
    intros [|j] Hj; simpl; [congruence|]. apply Hbefore. lia.
Qed.

Lemma terms_to_ranking_lookup (terms vocab : list nat) (i e : nat) :
  vocab !! i = Some e →
  _terms_to_ranking terms vocab !! i =
    Some (if bool_decide (e ∈ terms) then index e terms else length vocab).
Proof. intros Hi. unfold _terms_to_ranking. by rewrite list_lookup_fmap, Hi. Qed.

(** C8. The rank vector built from a top-term list and a vocabulary has one
    entry per vocabulary element: the 0-based position of the element's
    first occurrence in the list when it occurs there, and the size of the
    vocabulary when it does not. *)
Theorem terms_to_ranking_spec (terms vocab : list nat) :
  length (_terms_to_ranking terms vocab) = length vocab
  ∧ ∀ i e, vocab !! i = Some e →
      (e ∈ terms →
         ∃ p, _terms_to_ranking terms vocab !! i = Some p
              ∧ terms !! p = Some e ∧ ∀ j, j < p → terms !! j ≠ Some e)
      ∧ (e ∉ terms → _terms_to_ranking terms vocab !! i = Some (length vocab)).
Proof.
  split; [apply length_fmap|]. intros i e Hi.
  rewrite (terms_to_ranking_lookup _ _ _ _ Hi). split; intros He.
  - rewrite bool_decide_eq_true_2 by done. exists (index e terms).
    split; [done|]. by apply index_first.
  - by rewrite bool_decide_eq_false_2.
Qed.

Example terms_to_ranking_run : _terms_to_ranking [3; 7; 1] [1; 3; 5; 7; 9] = [2; 0; 5; 1; 5].
Proof. reflexivity. Qed.

(** ** The vocabulary of a model family *)

Section Vocabulary.
Context `{External}.
Implicit Types (model : artifact) (sample : list artifact) (k e : nat).

Lemma elem_of_concat {A} (x : A) (ls : list (list A)) :
  x ∈ concat ls ↔ ∃ l, l ∈ ls ∧ x ∈ l.
Proof.
  rewrite list_elem_of_In, in_concat. setoid_rewrite list_elem_of_In. done.
Qed.

Lemma collect_model_fold k sample (acc : gset nat * terms_array) :
  foldl (collect_model k) acc sample =
    (acc.1 ∪ ⋃ (model_vocabulary k <$> sample),
     acc.2 ++ ((λ model, _get_top_terms model k) <$> sample)).
Proof.
  revert acc. induction sample as [|model sample IH]; intros [vocab terms]; simpl.
  - f_equal; [|by rewrite app_nil_r].
    apply leibniz_equiv. intros e. rewrite elem_of_union, elem_of_empty. tauto.
  - rewrite IH. simpl. f_equal; [|by rewrite <- app_assoc].
    fold (model_vocabulary k model). apply leibniz_equiv. intros e.
    rewrite !elem_of_union. tauto.
Qed.

Lemma group_vocabulary_union k sample :
  group_vocabulary k sample = ⋃ (model_vocabulary k <$> sample).
Proof.
  unfold group_vocabulary. rewrite collect_model_fold. simpl.
  apply leibniz_equiv. intros e. rewrite elem_of_union, elem_of_empty. tauto.
Qed.

Lemma collect_sample_fold k (samples : list (list artifact)) (acc : gset nat * list terms_array) :
  foldl (collect_sample k) acc samples =
    (acc.1 ∪ ⋃ (group_vocabulary k <$> samples),
     acc.2 ++ ((λ sample, (λ model, _get_top_terms model k) <$> sample) <$> samples)).
Proof.
  revert acc. induction samples as [|sample samples IH]; intros [vocab terms]; simpl.
  - f_equal; [|by rewrite app_nil_r].
    apply leibniz_equiv. intros e. rewrite elem_of_union, elem_of_empty. tauto.
  - unfold collect_sample at 2. rewrite collect_model_fold. simpl. rewrite IH. simpl.
    f_equal; [|by rewrite <- app_assoc].
    rewrite group_vocabulary_union. apply leibniz_equiv. intros e.
    rewrite !elem_of_union. tauto.
Qed.

Lemma collect_terms_eq k (samples : list (list artifact)) :
  collect_terms k samples =
    (⋃ (group_vocabulary k <$> samples),
     (λ sample, (λ model, _get_top_terms model k) <$> sample) <$> samples).
Proof.
  unfold collect_terms. rewrite collect_sample_fold. simpl. f_equal.
  apply leibniz_equiv. intros e. rewrite elem_of_union, elem_of_empty. tauto.
Qed.

Lemma elem_of_group_vocabulary k sample e :
  e ∈ group_vocabulary k sample ↔
  ∃ model t, model ∈ sample ∧ t ∈ _get_top_terms model k ∧ e ∈ t.
Proof.
  rewrite group_vocabulary_union, elem_of_union_list. split.
  - intros (X & HX & He). apply list_elem_of_fmap in HX as (model & -> & Hm).
    unfold model_vocabulary in He.
    apply elem_of_list_to_set, elem_of_concat in He as (t & Ht & He).
    by exists model, t.
  - intros (model & t & Hm & Ht & He). exists (model_vocabulary k model).
    split; [apply list_elem_of_fmap; by exists model|].
    apply elem_of_list_to_set, elem_of_concat. by exists t.
Qed.

Lemma elem_of_vocabulary k (s : settings) e :
  e ∈ vocabulary k s ↔ ∃ sample, sample ∈ samples s ∧ e ∈ group_vocabulary k sample.
Proof.
  unfold vocabulary. rewrite collect_terms_eq. simpl. rewrite elem_of_union_list. split.
  - intros (X & HX & He). apply list_elem_of_fmap in HX as (sample & -> & Hs).
    by exists sample.
  - intros (sample & Hs & He). exists (group_vocabulary k sample).
    split; [apply list_elem_of_fmap; by exists sample|done].
Qed.

End Vocabulary.

Section RankingVectors.
Context `{External}.

Lemma mapM_fmap {A B C} (f : B → result C) (g : A → B) (l : list A) :
  mapM f (g <$> l) = mapM (λ x, f (g x)) l.
Proof.
  induction l as [|x l IH]; csimpl; [done|].
  destruct (f (g x)) as [y|e]; [|done].
  change (mapM f (g <$> l) ≫= (λ k, mret (y :: k))
          = mapM (λ x0, f (g x0)) l ≫= (λ k, mret (y :: k))).
  by rewrite IH.
Qed.

(** C3, as the code has it. [_create_ranking_vectors] builds one vocabulary
    per model family: the feature indices of every topic's top-term list of
    every artifact of every run-group of the family; the rank vectors of
    each run-group are all laid out over that one vocabulary. *)
Theorem ranking_vocabulary_family_wide (self : RobustTopics) (s : settings) :
  let k := n_relevant_top_words self in
  (∀ e, e ∈ vocabulary k s ↔
        ∃ sample model t,
          sample ∈ samples s ∧ model ∈ sample ∧ t ∈ _get_top_terms model k ∧ e ∈ t)
  ∧ _create_ranking_vectors self s =
      mapM (λ sample,
              np_array3 (rankings_of (elements (vocabulary k s))
                           ((λ model, _get_top_terms model k) <$> sample)))
           (samples s).
Proof.
  intros k. split.
  - intros e. rewrite elem_of_vocabulary. split.
    + intros (sample & Hs & He).
      apply elem_of_group_vocabulary in He as (model & t & Hm & Ht & He).
      by exists sample, model, t.
    + intros (sample & model & t & Hs & Hm & Ht & He). exists sample.
      split; [done|]. apply elem_of_group_vocabulary. by exists model, t.
  - unfold _create_ranking_vectors, vocabulary. fold k.
    rewrite collect_terms_eq. simpl. by rewrite mapM_fmap.
Qed.

End RankingVectors.

(** The claim as written fails: with two run-groups, feature 2 is in the
    vocabulary used for the first run-group although only runs of the second
    have it among their top terms, and the rank vectors of the first
    run-group have two entries, not one. *)
Lemma vocabulary_not_per_configuration :
  let W := scripted [] in
  samples two_groups !! 0 = Some [topic_on 0; topic_on 0]
  ∧ 2 ∈ vocabulary 1 two_groups
  ∧ (2 ∉ group_vocabulary 1 [topic_on 0; topic_on 0])
  ∧ vocabulary 1 two_groups ≠ group_vocabulary 1 [topic_on 0; topic_on 0]
  ∧ vector_lengths <$> _create_ranking_vectors (Self 2 1 []) two_groups
    = Ok [[[2]; [2]]; [[2]; [2]]].
Proof.
  intros W.
  assert (2 ∈ vocabulary 1 two_groups) as Hin by (apply (bool_decide_unpack _); by vm_compute).
  assert (2 ∉ group_vocabulary 1 [topic_on 0; topic_on 0]) as Hout
    by (apply (bool_decide_unpack _); by vm_compute).
  split; [done|]. split; [done|]. split; [done|]. split.
  - intros Heq. by rewrite Heq in Hin.
  - by vm_compute.
Qed.

(** ** Ranking the reports *)

Example fitted_returns :
  fitted.1.1 = Ok () ∧ fitted.2 = 2 ∧ length (all_reports fitted_self) = 1.
Proof. by vm_compute. Qed.

Lemma getattr_rank_metric (self : RobustTopics) :
  getattr self "rank_metric" = Raise AttributeError.
Proof. reflexivity. Qed.

Lemma rank_key_raises (self : RobustTopics) (weights : list float64) (s : report) :
  rank_key self weights s =
    Raise (match weights with [] => IndexError | _ => AttributeError end).
Proof. unfold rank_key. by destruct weights. Qed.

Lemma rank_models_no_report (self : RobustTopics) (weights : list float64) (ranking : dict nat) :
  all_reports self = [] → rank_models self weights ranking = Ok [].
Proof. intros Hnone. unfold rank_models. by rewrite Hnone. Qed.

(** C1, as the code has it. Whenever at least one report is stored,
    [rank_models] returns no list: its sort key reads [self.rank_metric],
    an attribute the class never sets, so the call raises [AttributeError]
    (or [IndexError] before that, when [weights] is empty). *)
Theorem rank_models_raises (self : RobustTopics) (weights : list float64) (ranking : dict nat) :
  all_reports self ≠ [] →
  rank_models self weights ranking =
    Raise (match weights with [] => IndexError | _ => AttributeError end).
Proof.
  intros Hsome. unfold rank_models.
  destruct (all_reports self) as [|s rest]; [done|].
  csimpl. by rewrite rank_key_raises.
Qed.

(** After a successful [fit_models] of one configuration, with the default
    arguments. *)
Lemma rank_models_raises_witness :
  all_reports fitted_self ≠ []
  ∧ rank_models fitted_self default_weights default_ranking = Raise AttributeError.
Proof.
  assert (all_reports fitted_self ≠ []) as Hsome.
  { intros Hnone. apply (f_equal length) in Hnone. vm_compute in Hnone. discriminate. }
  split; [done|].
  apply (rank_models_raises fitted_self default_weights default_ranking Hsome).
Defined.

(** ** Inspecting one configuration *)

Section Inspection.
Implicit Types (tt : terms_array) (topic : nat).

Lemma intersect_fold topic (runs : terms_array) (acc : result (gset nat)) (X : gset nat) :
  foldl (intersect_step topic) acc runs = Ok X →
  ∃ X0, acc = Ok X0
    ∧ ∀ e, e ∈ X ↔
        e ∈ X0 ∧ ∀ terms, terms ∈ runs → ∃ t, terms !! topic = Some t ∧ e ∈ t.
Proof.
  revert acc. induction runs as [|terms runs IH]; intros acc; simpl.
  - intros ->. exists X. split; [done|]. intros e. split; [|tauto].
    intros He. split; [done|]. intros terms Hin. by apply elem_of_nil in Hin.
  - intros Hfold. destruct (IH _ Hfold) as (X1 & Hstep & HX).
    unfold intersect_step, getitem in Hstep. destruct acc as [X0|]; [|done].
    simpl in Hstep. destruct (terms !! topic) as [t|] eqn:Ht; [|done].
    simpl in Hstep. injection Hstep as <-. exists X0. split; [done|].
    intros e. rewrite HX, elem_of_intersection, elem_of_list_to_set. split.
    + intros [[He0 Het] Hrest]. split; [done|]. intros terms' Hin.
      apply elem_of_cons in Hin as [->|Hin]; [by exists t|by apply Hrest].
    + intros [He0 Hall]. split; [split; [done|]|].
      * destruct (Hall terms) as (t' & Ht' & He); [apply list_elem_of_here|]. congruence.
      * intros terms' Hin. apply Hall. by apply list_elem_of_further.
Qed.

(** What [analyse_sample] computes for a topic: the common terms of the
    topic over all runs, cut down to the terms of topic 0 of the run whose
    position is the topic's index. *)
Lemma topic_intersection_spec tt topic (X : gset nat) :
  topic_intersection tt topic = Ok X →
  ∃ run start, tt !! topic = Some run ∧ run !! 0 = Some start
    ∧ ∀ e, e ∈ X ↔
        e ∈ start ∧ ∀ terms, terms ∈ tt → ∃ t, terms !! topic = Some t ∧ e ∈ t.
Proof.
  unfold topic_intersection, getitem.
  destruct (tt !! topic) as [run|] eqn:Hrun; [|done]. simpl.
  destruct (run !! 0) as [start|] eqn:Hstart; [|done]. simpl.
  intros Hfold. apply (intersect_fold topic) in Hfold as (X0 & [= <-] & HX).
  exists run, start. split; [done|]. split; [done|].
  intros e. rewrite HX, elem_of_list_to_set. done.
Qed.

End Inspection.

(** C4, as the code has it. Two runs agree on both topics (feature 1 leads
    topic 0, feature 3 leads topic 1), yet for topic 1 [analyse_sample]
    finds no common term and prints an empty line: it starts the
    intersection from topic 0 of run 1 instead of topic 1 of run 0. *)
Theorem analyse_sample_loses_common_terms :
  (∃ s, models fitted_self = [("sklearn_lda"%string, s)]
        ∧ topic_terms s = [[[[1]; [3]]; [[1]; [3]]]])
  ∧ topic_intersection [[[1]; [3]]; [[1]; [3]]] 0 = Ok {[1]}
  ∧ topic_intersection [[[1]; [3]]; [[1]; [3]]] 1 = Ok ∅
  ∧ analyse_sample fitted_self "sklearn_lda" 0 four_names =
      Ok ["Intersecting words for each topic"; "Topic: 0"; "b"; "Topic: 1"; ""]%string.
Proof.
  split; [|split; [|split]].
  - eexists. split; [by vm_compute|]. by vm_compute.
  - apply (bool_decide_unpack _). by vm_compute.
  - apply (bool_decide_unpack _). by vm_compute.
  - by vm_compute.
Qed.

(** ** The parameter sampler *)

Section Dictionaries.
Context {V : Type}.
Implicit Types (d : dict V) (k : string) (v : V).

Lemma dict_get_set_eq d k v : dict_get (dict_set d k v) k = Ok v.
Proof.
  induction d as [|[k' v'] d IH]; simpl.
  - by rewrite bool_decide_eq_true_2.
  - case_bool_decide as Hk; simpl.
    + by rewrite bool_decide_eq_true_2.
    + by rewrite bool_decide_eq_false_2.
Qed.

Lemma dict_get_set_ne d k k' v : k ≠ k' → dict_get (dict_set d k v) k' = dict_get d k'.
Proof.
  intros Hne. induction d as [|[k0 v0] d IH]; simpl.
  - by rewrite bool_decide_eq_false_2.
  - case_bool_decide as Hk; simpl.
    + subst k0. by rewrite !bool_decide_eq_false_2.
    + by rewrite IH.
Qed.

Lemma dict_get_elem_of d k v : NoDup (keys d) → (k, v) ∈ d → dict_get d k = Ok v.
Proof.
  induction d as [|[k0 v0] d IH]; intros Hnd Hin; [by apply elem_of_nil in Hin|].
  simpl in Hnd. apply NoDup_cons in Hnd as [Hfresh Hnd]. simpl.
  apply elem_of_cons in Hin as [[= <- <-]|Hin].
  - by rewrite bool_decide_eq_true_2.
  - rewrite bool_decide_eq_false_2; [by apply IH|].
    intros ->. apply Hfresh. apply list_elem_of_fmap. by exists (k, v).
Qed.

End Dictionaries.

Lemma filterM_total {A} (f : A → result bool) (g : A → bool) (l : list A) :
  (∀ x, x ∈ l → f x = Ok (g x)) → filterM f l = Ok (List.filter g l).
Proof.
  induction l as [|x l IH]; intros Hf; [done|]. simpl.
  rewrite (Hf x) by apply list_elem_of_here. simpl.
  rewrite IH; [done|]. intros y Hy. apply Hf. by apply list_elem_of_further.
Qed.

Lemma mapM_total {A B} (f : A → result B) (Q : A → B → Prop) (l : list A) :
  (∀ x, x ∈ l → ∃ y, f x = Ok y ∧ Q x y) →
  ∃ ys, mapM f l = Ok ys ∧ Forall2 Q l ys.
Proof.
  induction l as [|x l IH]; intros Hf.
  - exists []. by split; [|constructor].
  - destruct (Hf x) as (y & Hy & HQ); [apply list_elem_of_here|].
    destruct IH as (ys & Hys & HQs).
    { intros z Hz. apply Hf. by apply list_elem_of_further. }
    exists (y :: ys). split; [|by constructor].
    csimpl. rewrite Hy. simpl.
    change (mapM f l ≫= (λ k, mret (y :: k)) = Ok (y :: ys)). by rewrite Hys.
Qed.

Lemma filter_length_bound {A} (g : A → bool) (l : list A) :
  length (List.filter g l) ≤ length l.
Proof. induction l as [|x l IH]; simpl; [done|]. destruct (g x); simpl; lia. Qed.

Section Interpolation.
Implicit Types (lo hi x q : Qc).

Lemma interpolate_between lo hi x :
  (lo ≤ hi)%Qc → (0 ≤ x ≤ 1)%Qc → (lo ≤ lo + (hi - lo) * x ≤ hi)%Qc.
Proof.
  intros Hlh [Hx0 Hx1].
  assert (0 ≤ hi - lo)%Qc as Hd.
  { apply (Qcplus_le_mono_r _ _ lo). by ring_simplify. }
  split.
  - rewrite <- (Qcplus_0_r lo) at 1. apply Qcplus_le_mono_l.
    by apply Qcmult_nonneg_nonneg.
  - replace hi with (lo + (hi - lo) * 1)%Qc at 2 by ring.
    apply Qcplus_le_mono_l. by apply Qcmult_le_mono_nonneg_l.
Qed.

(** [int(value)] stays between integer bounds. *)
Lemma trunc_between (a b : Z) q :
  (Qc_of_Z a ≤ q ≤ Qc_of_Z b)%Qc → (a ≤ trunc q ≤ b)%Z.
Proof.
  intros [Ha Hb]. unfold trunc. destruct q as [[n d] Hcanon].
  unfold Qcle, Qle in Ha, Hb. simpl in *.
  pose proof (Pos2Z.is_pos d) as Hd.
  pose proof (Z.quot_rem' n (Z.pos d)) as Hqr.
  destruct (Z_le_gt_dec 0 n) as [Hn|Hn].
  - pose proof (Z.rem_bound_pos n (Z.pos d) Hn Hd). nia.
  - assert (n ≤ 0)%Z as Hn' by lia.
    pose proof (Z.rem_bound_pos_neg n (Z.pos d) Hd Hn'). nia.
Qed.

Lemma floor_nonneg q : (0 ≤ q)%Qc → (0 ≤ floor q)%Z.
Proof.
  intros Hq. unfold floor. change 0%Z with (Qfloor 0). by apply Qfloor_resp_le.
Qed.

End Interpolation.

Section Sampler.
Context `{External}.
Implicit Types (p : param) (params : dict param) (x : Qc) (v : pyval).

Lemma range_to_value_spec p lo hi x :
  range_shape p lo hi → (0 ≤ x ≤ 1)%Qc →
  ∃ v q, _range_to_value (p_values p) x (p_type p) = Ok v
         ∧ as_number v = Ok q ∧ (lo ≤ q ≤ hi)%Qc.
Proof.
  intros (a & b & Hv & Ha & Hb & Hle & Hint) Hx.
  pose proof (interpolate_between lo hi x Hle Hx) as Hbetween.
  rewrite Hv. unfold _range_to_value. simpl. rewrite Ha, Hb. simpl.
  case_bool_decide as Hty.
  - destruct (Hint Hty) as [[za ->] [zb ->]]. simpl in Ha, Hb.
    injection Ha as <-. injection Hb as <-.
    eexists _, _. split; [done|]. split; [done|].
    apply trunc_between in Hbetween as [Hlo Hhi].
    split; by apply (proj1 (Z2Qc_inj_le _ _)).
  - by eexists _, _.
Qed.

Lemma list_to_value_spec p (l : list pyval) x :
  list_shape p l → (0 ≤ x ≤ 1)%Qc →
  ∃ v, _list_to_value (p_values p) x (p_type p) = Ok v ∧ v ∈ l.
Proof.
  intros [Hv Hne] [Hx0 Hx1]. rewrite Hv. unfold _list_to_value. simpl.
  assert (0 ≤ floor (x * Qc_of_nat (length l)))%Z as Hfloor.
  { apply floor_nonneg, Qcmult_nonneg_nonneg; [done|apply Qc_of_nat_nonneg]. }
  assert (length l ≠ 0) as Hlen by (by destruct l).
  set (idx := (floor (x * Qc_of_nat (length l)) `min` (Z.of_nat (length l) - 1))%Z).
  assert (0 ≤ idx < Z.of_nat (length l))%Z as Hidx by (unfold idx; lia).
  unfold getitem_Z. rewrite bool_decide_eq_true_2 by lia. unfold getitem.
  destruct (lookup_lt_is_Some_2 l (Z.to_nat idx)) as [v Hlook]; [lia|].
  rewrite Hlook. exists v. split; [done|]. by apply list_elem_of_lookup_2 in Hlook.
Qed.

Lemma unknown_mode_value p x : ¬ known_mode p → _param_to_value p x = Ok VNone.
Proof.
  intros Hunknown. unfold _param_to_value, known_mode in *.
  rewrite !bool_decide_eq_false_2; [done|tauto|tauto].
Qed.

Lemma param_to_value_total p x :
  processable p → p_mode p ≠ "fixed"%string → (0 ≤ x ≤ 1)%Qc →
  ∃ v, _param_to_value p x = Ok v.
Proof.
  intros [[Hfixed|[[Hmode (lo & hi & Hshape)]|[Hmode (l & Hshape)]]]|Hunknown] Hnf Hx.
  - done.
  - destruct (range_to_value_spec p lo hi x Hshape Hx) as (v & q & Hv & _).
    exists v. unfold _param_to_value. by rewrite bool_decide_eq_true_2.
  - destruct (list_to_value_spec p l x Hshape Hx) as (v & Hv & _).
    exists v. unfold _param_to_value. rewrite Hmode. by simpl.
  - exists VNone. by apply unknown_mode_value.
Qed.

Lemma set_changing_total params (vec : list Qc) (names : list string) :
  (∀ name, name ∈ names →
     ∃ p, dict_get params name = Ok p ∧ p_mode p ≠ "fixed"%string ∧ processable p) →
  Forall (λ x, 0 ≤ x ≤ 1)%Qc vec →
  ∀ (i : nat) (sample : config), i + length names ≤ length vec →
  ∃ sample', set_changing params vec i names sample = Ok sample'
    ∧ (∀ name, name ∈ names →
         ∃ p v, dict_get params name = Ok p ∧ dict_get sample' name = Ok v ∧ drawn p v)
    ∧ (∀ name, name ∉ names → dict_get sample' name = dict_get sample name).
Proof.
  intros Hnames Hvec. induction names as [|name names IH]; intros i sample Hlen.
  - exists sample. split; [done|]. split; [|done].
    intros name Hin. by apply elem_of_nil in Hin.
  - destruct (Hnames name) as (p & Hp & Hnf & Hproc); [apply list_elem_of_here|].
    simpl in Hlen.
    destruct (lookup_lt_is_Some_2 vec i) as [x Hx]; [lia|].
    assert (0 ≤ x ≤ 1)%Qc as Hx01 by apply (Forall_lookup_1 _ _ _ _ Hvec Hx).
    destruct (param_to_value_total p x Hproc Hnf Hx01) as [v Hv].
    destruct (IH (λ n Hn, Hnames n (list_elem_of_further _ _ _ Hn))
                 (S i) (dict_set sample name v)) as (sample' & Hrun & Hin & Hout); [lia|].
    exists sample'. split; [|split].
    + simpl. rewrite Hp. simpl. unfold getitem. rewrite Hx. simpl. by rewrite Hv.
    + intros name0 Hin0. destruct (decide (name0 ∈ names)) as [Hlater|Hlater].
      { by apply Hin. }
      apply elem_of_cons in Hin0 as [->|Hin0]; [|done].
      exists p, v. split; [done|]. split; [|by exists x].
      by rewrite (Hout name Hlater), dict_get_set_eq.
    + intros name0 Hnot. apply not_elem_of_cons in Hnot as [Hne Hnot].
      rewrite (Hout name0 Hnot). by apply dict_get_set_ne.
Qed.

Lemma set_fixed_total params (names : list string) :
  (∀ name, name ∈ names → ∃ p, dict_get params name = Ok p) →
  ∀ sample : config,
  ∃ sample', set_fixed params names sample = Ok sample'
    ∧ (∀ name, name ∈ names →
         ∃ p, dict_get params name = Ok p ∧ dict_get sample' name = Ok (p_values p))
    ∧ (∀ name, name ∉ names → dict_get sample' name = dict_get sample name).
Proof.
  intros Hnames. induction names as [|name names IH]; intros sample.
  - exists sample. split; [done|]. split; [|done].
    intros name Hin. by apply elem_of_nil in Hin.
  - destruct (Hnames name) as (p & Hp); [apply list_elem_of_here|].
    destruct (IH (λ n Hn, Hnames n (list_elem_of_further _ _ _ Hn))
                 (dict_set sample name (p_values p))) as (sample' & Hrun & Hin & Hout).
    exists sample'. split; [|split].
    + simpl. rewrite Hp. by simpl.
    + intros name0 Hin0. destruct (decide (name0 ∈ names)) as [Hlater|Hlater].
      { by apply Hin. }
      apply elem_of_cons in Hin0 as [->|Hin0]; [|done].
      exists p. split; [done|]. by rewrite (Hout name Hlater), dict_get_set_eq.
    + intros name0 Hnot. apply not_elem_of_cons in Hnot as [Hne Hnot].
      rewrite (Hout name0 Hnot). by apply dict_get_set_ne.
Qed.

End Sampler.

Section Sampling.
Context `{External}.
Implicit Types (p : param) (params : dict param) (v : pyval).

Lemma sampling_total params (n : nat) :
  unit_cube_points (length params) n →
  NoDup (keys params) →
  Forall (λ kv, processable kv.2) params →
  ∃ seq, _compute_param_combinations params n = Ok seq
    ∧ length seq = n
    ∧ ∀ cfg name p, cfg ∈ seq → (name, p) ∈ params →
        ∃ v, dict_get cfg name = Ok v ∧ sampled p v.
Proof.
  intros [Hcount Hpoints] Hnodup Hproc.
  assert (∀ x, x ∈ keys params → ∃ p, (x, p) ∈ params ∧ dict_get params x = Ok p)
    as Hkeys.
  { intros x Hx. apply list_elem_of_fmap in Hx as ([x' p] & -> & Hin).
    exists p. split; [done|]. by apply dict_get_elem_of. }
  unfold _compute_param_combinations.
  rewrite (filterM_total
    (λ x, p ← dict_get params x; Ok (negb (bool_decide (p_mode p = "fixed"%string))))
    (λ x, negb (is_fixed params x))); last first.
  { intros x Hx. destruct (Hkeys x Hx) as (p & _ & Hp). unfold is_fixed. by rewrite Hp. }
  simpl.
  rewrite (filterM_total
    (λ x, p ← dict_get params x; Ok (bool_decide (p_mode p = "fixed"%string)))
    (is_fixed params)); last first.
  { intros x Hx. destruct (Hkeys x Hx) as (p & _ & Hp). unfold is_fixed. by rewrite Hp. }
  simpl.
  set (changing := List.filter (λ x, negb (is_fixed params x)) (keys params)).
  set (fixed := List.filter (is_fixed params) (keys params)).
  destruct (mapM_total
    (λ vec, sample ← set_changing params vec 0 changing []; set_fixed params fixed sample)
    (λ _ cfg, ∀ name p, (name, p) ∈ params → ∃ v, dict_get cfg name = Ok v ∧ sampled p v)
    (i4_sobol_generate (length params) n)) as (seq & Hseq & Hall).
  { intros vec Hvec.
    apply (proj1 (Forall_forall _ _) Hpoints) in Hvec as [Hdim Hunit].
    destruct (set_changing_total params vec changing)
      with (i := 0) (sample := @nil (string * pyval))
      as (sample1 & Hrun1 & Hin1 & Hout1); [|done| |].
    { intros name Hname. apply list_elem_of_In, filter_In in Hname as [Hname Hmode].
      apply list_elem_of_In in Hname. destruct (Hkeys name Hname) as (p & Hin & Hp).
      exists p. split; [done|]. unfold is_fixed in Hmode. rewrite Hp in Hmode.
      split; [by apply negb_true_iff, bool_decide_eq_false in Hmode|].
      apply (proj1 (Forall_forall _ _) Hproc (name, p) Hin). }
    { pose proof (filter_length_bound (λ x, negb (is_fixed params x)) (keys params)) as Hle.
      unfold keys in Hle. rewrite length_fmap in Hle. unfold changing, keys.
      rewrite Hdim. simpl. exact Hle. }
    destruct (set_fixed_total params fixed) with (sample := sample1)
      as (cfg & Hrun2 & Hin2 & Hout2).
    { intros name Hname. apply list_elem_of_In, filter_In in Hname as [Hname _].
      apply list_elem_of_In in Hname. destruct (Hkeys name Hname) as (p & _ & Hp).
      by exists p. }
    exists cfg. split; [rewrite Hrun1; by simpl|].
    intros name p Hin. pose proof (dict_get_elem_of _ _ _ Hnodup Hin) as Hp.
    assert (name ∈ keys params) as Hname by (apply list_elem_of_fmap; by exists (name, p)).
    unfold sampled. case_bool_decide as Hmode.
    - destruct (Hin2 name) as (p' & Hp' & Hv).
      { apply list_elem_of_In, filter_In. split; [by apply list_elem_of_In|].
        unfold is_fixed. rewrite Hp. by apply bool_decide_eq_true. }
      rewrite Hp in Hp'. injection Hp' as <-. by exists (p_values p).
    - destruct (Hin1 name) as (p' & v & Hp' & Hv & Hdrawn).
      { apply list_elem_of_In, filter_In. split; [by apply list_elem_of_In|].
        unfold is_fixed. rewrite Hp. by apply negb_true_iff, bool_decide_eq_false. }
      rewrite Hp in Hp'. injection Hp' as <-. exists v. split; [|done].
      rewrite Hout2; [done|]. intros Hfixed.
      apply list_elem_of_In, filter_In in Hfixed as [_ Hfixed].
      unfold is_fixed in Hfixed. rewrite Hp in Hfixed.
      by apply bool_decide_eq_true in Hfixed. }
  exists seq. split; [done|]. split.
  - by rewrite <- (Forall2_length _ _ _ Hall).
  - intros cfg name p Hcfg. apply list_elem_of_lookup in Hcfg as [i Hcfg].
    destruct (Forall2_lookup_r _ _ _ _ _ Hall Hcfg) as (vec & _ & HQ). apply HQ.
Qed.


(** C5, as the code has it. A parameter whose mode is none of [fixed],
    [range] and [list] does not stop the sampler: when the other parameters
    can be processed, sampling returns its [n] configurations, and in every
    one of them that parameter is present with the value [None]. *)
Theorem unknown_mode_sampled_as_none params (n : nat) (name : string) p :
  unit_cube_points (length params) n →
  NoDup (keys params) →
  Forall (λ kv, processable kv.2) params →
  (name, p) ∈ params →
  ¬ known_mode p →
  ∃ seq, _compute_param_combinations params n = Ok seq
    ∧ length seq = n
    ∧ ∀ cfg, cfg ∈ seq → dict_get cfg name = Ok VNone.
Proof.
  intros Hpoints Hnodup Hproc Hin Hunknown.
  destruct (sampling_total params n Hpoints Hnodup Hproc) as (seq & Hseq & Hlen & Hall).
  exists seq. split; [done|]. split; [done|].
  intros cfg Hcfg. destruct (Hall cfg name p Hcfg Hin) as (v & Hv & Hsampled).
  unfold sampled in Hsampled. rewrite bool_decide_eq_false_2 in Hsampled.
  - destruct Hsampled as (x & _ & Hdrawn).
    rewrite (unknown_mode_value p x Hunknown) in Hdrawn. by injection Hdrawn as <-.
  - intros Hfixed. apply Hunknown. by left.
Qed.

End Sampling.

Lemma midpoints_in_unit_cube (dim n : nat) :
  unit_cube_points (H:=scripted []) dim n.
Proof.
  unfold unit_cube_points. simpl. unfold midpoint_generate. split.
  - by rewrite length_fmap, length_seq.
  - apply Forall_fmap, Forall_forall. intros j Hj. apply elem_of_seq in Hj. simpl.
    split; [apply length_replicate|]. apply Forall_replicate.
    apply quotient_unit_interval; lia.
Qed.

Lemma nmf_complex_valid : valid_space nmf_complex.
Proof.
  split; [apply (bool_decide_unpack _); by vm_compute|].
  unfold nmf_complex.
  apply Forall_cons_2; [|apply Forall_cons_2; [|apply Forall_cons_2;
    [|apply Forall_cons_2; [|apply Forall_nil_2]]]]; simpl.
  - right; left. split; [done|]. exists (Qc_of_Z 5), (Qc_of_Z 50), (VInt 5), (VInt 50).
    split; [done|]. split; [done|]. split; [done|].
    split; [by apply (proj1 (Z2Qc_inj_le 5 50))|]. intros _. split; by eexists.
  - right; right. split; [done|]. eexists. by split.
  - by left.
  - right; right. split; [done|]. eexists. by split.
Qed.

Lemma misspelt_mode_unknown : ¬ known_mode misspelt_param.
Proof. by intros [Hmode|[Hmode|Hmode]]. Qed.


Example nmf_complex_samples :
  _compute_param_combinations (H:=scripted []) nmf_complex 3 =
    Ok [[("n_components", VInt 12); ("init", VStr "random");
         ("beta_loss", VStr "frobenius"); ("solver", VStr "mu")];
        [("n_components", VInt 27); ("init", VStr "nndsvda");
         ("beta_loss", VStr "kullback-leibler"); ("solver", VStr "mu")];
        [("n_components", VInt 42); ("init", VNone);
         ("beta_loss", VStr "kullback-leibler"); ("solver", VStr "mu")]]%string.
Proof. by vm_compute. Qed.

(** The claim as written fails: a space whose only parameter has the mode
    [rnage] is sampled without any error, and the parameter is [None] in
    both configurations. *)
Lemma unknown_mode_not_rejected :
  ¬ known_mode misspelt_param
  ∧ ¬ raises (_compute_param_combinations (H:=scripted []) misspelt_space 2)
  ∧ _compute_param_combinations (H:=scripted []) misspelt_space 2 =
      Ok [[("n_components"%string, VNone)]; [("n_components"%string, VNone)]].
Proof.
  split; [apply misspelt_mode_unknown|]. split; [|by vm_compute].
  intros [e He]. vm_compute in He. discriminate.
Qed.

Lemma unknown_mode_sampled_as_none_witness :
  unit_cube_points (H:=scripted []) (length misspelt_space) 2
  ∧ NoDup (keys misspelt_space)
  ∧ Forall (λ kv, processable kv.2) misspelt_space
  ∧ ("n_components"%string, misspelt_param) ∈ misspelt_space
  ∧ ¬ known_mode misspelt_param
  ∧ ∃ seq, _compute_param_combinations (H:=scripted []) misspelt_space 2 = Ok seq
    ∧ length seq = 2
    ∧ ∀ cfg, cfg ∈ seq → dict_get cfg "n_components" = Ok VNone.
Proof.
  pose proof (midpoints_in_unit_cube (length misspelt_space) 2) as Hpoints.
  assert (NoDup (keys misspelt_space)) as Hnodup
    by (apply (bool_decide_unpack _); by vm_compute).
  assert (Forall (λ kv, processable kv.2) misspelt_space) as Hproc.
  { apply Forall_cons_2; [|apply Forall_nil_2]. right. apply misspelt_mode_unknown. }
  assert (("n_components"%string, misspelt_param) ∈ misspelt_space) as Hin
    by apply list_elem_of_here.
  pose proof misspelt_mode_unknown as Hunknown.
  do 5 (split; [done|]).
  exact (unknown_mode_sampled_as_none (H:=scripted []) misspelt_space 2
           "n_components" misspelt_param Hpoints Hnodup Hproc Hin Hunknown).
Defined.

(** ** What the stability computation leaves alone *)

Section Frame.
Context `{External}.
Implicit Types (s : settings) (self : RobustTopics) (name : string).

Lemma extends_refl s : extends s s.
Proof. by repeat split. Qed.

Lemma extends_trans s1 s2 s3 : extends s1 s2 → extends s2 s3 → extends s1 s3.
Proof.
  intros (Hp & Hs & Hn & Hd & H1 & H2 & H3 & H4) (Hp' & Hs' & Hn' & Hd' & H1' & H2' & H3' & H4').
  repeat split; try congruence; by etrans.
Qed.

Lemma append_samples_extends s g : extends s (append_samples s g).
Proof. repeat split; simpl; try done. by apply prefix_app_r. Qed.

Lemma append_topic_terms_extends s t : extends s (append_topic_terms s t).
Proof. repeat split; simpl; try done. by apply prefix_app_r. Qed.

Lemma append_report_extends s r : extends s (append_report s r).
Proof. repeat split; simpl; try done. by apply prefix_app_r. Qed.

Lemma append_report_full_extends s r : extends s (append_report_full s r).
Proof. repeat split; simpl; try done. by apply prefix_app_r. Qed.

Lemma add_groups_extends s groups : extends s (add_groups s groups).
Proof.
  unfold add_groups. revert s. induction groups as [|g groups IH]; intros s; simpl.
  - apply extends_refl.
  - eapply extends_trans; [apply append_samples_extends|apply IH].
Qed.

Lemma stability_of_sample_extends self name rv s sample_id sample :
  extends s (stability_of_sample self name rv s sample_id sample).2
  ∧ samples (stability_of_sample self name rv s sample_id sample).2 = samples s.
Proof.
  unfold stability_of_sample.
  destruct (getitem sample 0) as [first|e]; simpl; [|split; [apply extends_refl|done]].
  destruct (np_array3 _) as [arr|e]; simpl; [|split; [apply extends_refl|done]].
  destruct (build_reports _ _ _ _ _ _ _) as [[r rf]|e]; simpl.
  - split; [|done]. eapply extends_trans; [apply append_topic_terms_extends|].
    eapply extends_trans; [apply append_report_extends|apply append_report_full_extends].
  - split; [apply append_topic_terms_extends|done].
Qed.

Lemma stability_of_samples_extends self name rv todo s sample_id :
  extends s (stability_of_samples self name rv s sample_id todo).2
  ∧ samples (stability_of_samples self name rv s sample_id todo).2 = samples s.
Proof.
  revert s sample_id. induction todo as [|sample todo IH]; intros s sample_id; simpl.
  - split; [apply extends_refl|done].
  - pose proof (stability_of_sample_extends self name rv s sample_id sample) as [Hext Hsam].
    destruct (stability_of_sample self name rv s sample_id sample) as [[u|e] s']; simpl in *.
    + destruct (IH s' (S sample_id)) as [Hext' Hsam'].
      split; [by eapply extends_trans|congruence].
    + done.
Qed.

Lemma stability_of_settings_extends self name s :
  extends s (stability_of_settings self name s).2
  ∧ samples (stability_of_settings self name s).2 = samples s.
Proof.
  unfold stability_of_settings.
  destruct (_create_ranking_vectors self s) as [rv|e]; simpl.
  - apply stability_of_samples_extends.
  - split; [apply extends_refl|done].
Qed.

Lemma models_extend_refl (m : dict settings) : models_extend m m.
Proof. apply Forall2_same_length_lookup_2; [done|]. intros i kv kv' Hkv Hkv'.
  rewrite Hkv in Hkv'. injection Hkv' as <-. split; [done|apply extends_refl]. Qed.

Lemma models_extend_trans (m1 m2 m3 : dict settings) :
  models_extend m1 m2 → models_extend m2 m3 → models_extend m1 m3.
Proof.
  unfold models_extend. intros H12. revert m3.
  induction H12 as [|kv1 kv2 m1 m2 [Hk Hext] _ IH]; intros m3 H23.
  - by apply Forall2_nil_inv_l in H23 as ->.
  - apply Forall2_cons_inv_l in H23 as (kv3 & m3' & [Hk' Hext'] & H23 & ->).
    constructor; [|by apply IH]. split; [congruence|by eapply extends_trans].
Qed.

Lemma stability_of_models_extends self (todo : dict settings) :
  models_extend todo (stability_of_models self todo).2.
Proof.
  induction todo as [|[name s] todo IH]; simpl; [constructor|].
  pose proof (stability_of_settings_extends self name s) as [Hext _].
  destruct (stability_of_settings self name s) as [[u|e] s']; simpl in *.
  - destruct (stability_of_models self todo) as [r rest]. simpl in *.
    by constructor.
  - constructor; [done|apply models_extend_refl].
Qed.

Lemma compute_topic_stability_extends self :
  models_extend (models self) (models (_compute_topic_stability self).2)
  ∧ n_iterations (_compute_topic_stability self).2 = n_iterations self
  ∧ n_relevant_top_words (_compute_topic_stability self).2 = n_relevant_top_words self.
Proof.
  unfold _compute_topic_stability.
  pose proof (stability_of_models_extends self (models self)) as Hext.
  by destruct (stability_of_models self (models self)) as [r m].
Qed.

End Frame.

(** ** The fitting loop *)

Section Fitting.
Context `{External}.
Implicit Types (s : settings) (self : RobustTopics) (name : string) (cfg : config).

Lemma add_groups_fields s groups :
  samples (add_groups s groups) = samples s ++ groups
  ∧ topic_terms (add_groups s groups) = topic_terms s
  ∧ reports (add_groups s groups) = reports s
  ∧ reports_full (add_groups s groups) = reports_full s
  ∧ data (add_groups s groups) = data s
  ∧ sampling (add_groups s groups) = sampling s.
Proof.
  unfold add_groups. revert s. induction groups as [|g groups IH]; intros s; simpl.
  - by rewrite app_nil_r.
  - destruct (IH (append_samples s g)) as (-> & -> & -> & -> & -> & ->). simpl.
    by rewrite <- app_assoc.
Qed.

Lemma fit_if_spec (test : bool) est cfg (X : matrix) (acc : list artifact) (calls : nat) :
  match (fit_if test est cfg X acc calls).1 with
  | Ok g => ∃ new, g = acc ++ new ∧ length new = (if test then 1 else 0)
                   ∧ Forall (λ a, ∃ est k, fit est cfg X k = Ok a) new
  | Raise e => ∃ k, fit est cfg X k = Raise e
  end.
Proof.
  unfold fit_if. destruct test; simpl.
  - destruct (fit est cfg X calls) as [a|e] eqn:Hfit; simpl.
    + exists [a]. split; [done|]. split; [done|]. apply Forall_singleton. by exists est, calls.
    + by exists calls.
  - exists []. by rewrite app_nil_r.
Qed.

Lemma fit_iterations_spec name cfg (X : matrix) (n : nat) (acc : list artifact) (calls : nat) :
  match (fit_iterations name cfg X n acc calls).1 with
  | Ok g => ∃ new, g = acc ++ new ∧ length new = n * fits_per_iteration name
                   ∧ Forall (λ a, ∃ est k, fit est cfg X k = Ok a) new
  | Raise e => ∃ est k, fit est cfg X k = Raise e
  end.
Proof.
  revert acc calls. induction n as [|n IH]; intros acc calls; simpl.
  - exists []. by rewrite app_nil_r.
  - pose proof (fit_if_spec (bool_decide (name = "sklearn_lda"%string))
                  LatentDirichletAllocation cfg X acc calls) as H1.
    destruct (fit_if _ LatentDirichletAllocation cfg X acc calls) as [[its1|e] calls1];
      simpl in *; [|destruct H1 as [k Hk]; by exists LatentDirichletAllocation, k].
    destruct H1 as (new1 & -> & Hlen1 & Hall1).
    pose proof (fit_if_spec (bool_decide (name = "sklearn_nmf"%string))
                  NMF cfg X (acc ++ new1) calls1) as H2.
    destruct (fit_if _ NMF cfg X (acc ++ new1) calls1) as [[its2|e] calls2];
      simpl in *; [|destruct H2 as [k Hk]; by exists NMF, k].
    destruct H2 as (new2 & -> & Hlen2 & Hall2).
    specialize (IH ((acc ++ new1) ++ new2) calls2).
    destruct (fit_iterations name cfg X n ((acc ++ new1) ++ new2) calls2) as [[g|e] calls3];
      simpl in *; [|done].
    destruct IH as (new3 & -> & Hlen3 & Hall3).
    exists (new1 ++ new2 ++ new3). split; [by rewrite !app_assoc|].
    split; [|by repeat apply Forall_app_2].
    rewrite !length_app, Hlen1, Hlen2, Hlen3. unfold fits_per_iteration. lia.
Qed.

Lemma fit_samples_spec self name (todo : list config) s (calls : nat) :
  ∃ groups,
    (fit_samples self name s todo calls).1.2 = add_groups s groups
    ∧ Forall2 (run_group_of name (n_iterations self) (data s))
              (take (length groups) todo) groups
    ∧ match (fit_samples self name s todo calls).1.1 with
      | Ok _ => length groups = length todo
      | Raise e => length groups < length todo
                   ∧ ∃ est cfg k, fit est cfg (data s) k = Raise e
      end.
Proof.
  revert s calls. induction todo as [|cfg todo IH]; intros s calls; simpl.
  - exists []. by repeat split.
  - pose proof (fit_iterations_spec name cfg (data s) (n_iterations self) [] calls) as Hits.
    destruct (fit_iterations name cfg (data s) (n_iterations self) [] calls)
      as [[g|e] calls1]; simpl in *.
    + destruct Hits as (new & -> & Hlen & Hall). simpl.
      destruct (IH (append_samples s new) calls1) as (groups & Hst & Hgroups & Hres).
      exists (new :: groups). split; [done|]. split; [by constructor|].
      destruct ((fit_samples self name (append_samples s new) todo calls1).1.1);
        simpl in *; [lia|]. destruct Hres as [Hlt Hfit]. split; [lia|done].
    + exists []. split; [done|]. split; [constructor|]. split; [simpl; lia|].
      destruct Hits as (est & k & Hk). by exists est, cfg, k.
Qed.

Lemma fit_all_spec self (todo : dict settings) (calls : nat) :
  match (fit_all self todo calls).1.1 with
  | Ok _ => Forall2 (fully_fitted self) todo (fit_all self todo calls).1.2
  | Raise e => (∃ est cfg X k, fit est cfg X k = Raise e)
               ∧ interrupted self todo (fit_all self todo calls).1.2
  end.
Proof.
  revert calls. induction todo as [|[name s] todo IH]; intros calls; simpl; [constructor|].
  destruct (fit_samples_spec self name (sampling s) s calls) as (groups & Hst & Hgroups & Hres).
  destruct (fit_samples self name s (sampling s) calls) as [[[u|e] s'] calls1]; simpl in *.
  - specialize (IH calls1).
    rewrite Hres, firstn_all in Hgroups.
    assert (fully_fitted self (name, s) (name, s')) as Hfull.
    { split; [done|]. by exists groups. }
    clear Hgroups.
    destruct (fit_all self todo calls1) as [[[u'|e] rest] calls2]; simpl in *.
    + by constructor.
    + destruct IH as [Hfit (before & name' & s0 & groups' & after & before'
                            & -> & -> & Hbefore & Hlt & Hgroups')].
      split; [done|].
      exists ((name, s) :: before), name', s0, groups', after, ((name, s') :: before').
      split; [done|]. split; [done|]. split; [by constructor|done].
  - destruct Hres as [Hlt (est & cfg & k & Hk)]. split; [by exists est, cfg, (data s), k|].
    exists [], name, s, groups, todo, []. subst s'.
    split; [done|]. split; [done|]. split; [constructor|done].
Qed.

Lemma fully_fitted_extends self (before before' : dict settings) :
  Forall2 (fully_fitted self) before before' →
  models_extend before before' ∧ same_reports before before'.
Proof.
  induction 1 as [|[name s] [name' s'] before before' [Hname (groups & Hs & _)] _ [IH1 IH2]];
    [split; constructor|]. simpl in *. subst.
  destruct (add_groups_fields s groups) as (_ & Ht & Hr & Hrf & _).
  split; constructor; try done. split; [done|apply add_groups_extends].
Qed.

Lemma same_reports_refl (m : dict settings) : same_reports m m.
Proof. induction m; constructor; done. Qed.

Lemma interrupted_extends self (todo m : dict settings) :
  interrupted self todo m → models_extend todo m ∧ same_reports todo m.
Proof.
  intros (before & name & s & groups & after & before' & -> & -> & Hbefore & _ & _).
  apply fully_fitted_extends in Hbefore as [Hext Hsame].
  destruct (add_groups_fields s groups) as (_ & Ht & Hr & Hrf & _).
  split.
  - apply Forall2_app; [done|]. constructor; [|apply models_extend_refl].
    split; [done|apply add_groups_extends].
  - apply Forall2_app; [done|]. constructor; [done|apply same_reports_refl].
Qed.

Lemma fit_all_extends self (todo : dict settings) (calls : nat) :
  models_extend todo (fit_all self todo calls).1.2.
Proof.
  pose proof (fit_all_spec self todo calls) as Hspec.
  destruct ((fit_all self todo calls).1.1).
  - by apply fully_fitted_extends in Hspec as [Hext _].
  - destruct Hspec as [_ Hint]. by apply interrupted_extends in Hint as [Hext _].
Qed.

End Fitting.

Section Orchestrator.
Context `{External}.
Implicit Types (s : settings) (self : RobustTopics) (name : string).

(** C10. Whatever [fit_models] does — return or raise — the registry it
    leaves holds the same families, and in each of them [params],
    [sampling], [n_samples] and [data] are what they were, while [samples],
    [topic_terms], [report] and [report_full] still begin with their former
    entries; the same holds of [_compute_topic_stability] on its own. *)
Theorem fit_models_frame self (calls : nat) :
  models_extend (models self) (models (fit_models self calls).1.2)
  ∧ models_extend (models self) (models (_compute_topic_stability self).2).
Proof.
  split; [|apply compute_topic_stability_extends].
  unfold fit_models. pose proof (fit_all_extends self (models self) calls) as Hfit.
  destruct (fit_all self (models self) calls) as [[[u|e] m] calls']; simpl in *; [|done].
  pose proof (compute_topic_stability_extends (with_models self m)) as [Hstab _].
  destruct (_compute_topic_stability (with_models self m)) as [r self']. simpl in *.
  by eapply models_extend_trans.
Qed.


End Orchestrator.



(** ** Run-groups of fewer than two runs *)

Section ShortGroups.
Context `{External}.
Implicit Types (s : settings) (self : RobustTopics) (name : string).

Lemma mapM_Ok {A B} (f : A → result B) (l : list A) (ys : list B) :
  mapM f l = Ok ys → Forall2 (λ x y, f x = Ok y) l ys.
Proof.
  revert ys. induction l as [|x l IH]; intros ys; csimpl.
  - intros [= <-]. constructor.
  - destruct (f x) as [y|e] eqn:Hx; [|done]. simpl.
    destruct (mapM f l) as [ys'|e] eqn:Hl; [|done]. simpl.
    intros [= <-]. constructor; [done|by apply IH].
Qed.

Lemma np_array3_Ok {A} (a arr : list (list (list A))) : np_array3 a = Ok arr → arr = a.
Proof. unfold np_array3. case_match; [by intros [= <-]|done]. Qed.

Lemma slice_topic_length {A} (a : list (list (list A))) (topic : nat) (X : list (list A)) :
  slice_topic a topic = Ok X → length X = length a.
Proof. intros HX. apply mapM_Ok in HX. by apply Forall2_length in HX. Qed.

Lemma pdist_single {A} (metric : A → A → result float64) (X : list A) :
  length X < 2 → pdist metric X = Ok [].
Proof. destruct X as [|x [|y X]]; simpl; [done|done|lia]. Qed.

(** With fewer than two runs there is no pair to compare. *)
Lemma evaluate_topic_no_pair (terms : terms_array) dists (rv : list terms_array)
    (sample_id topic : nat) (pw : pairwise) :
  length terms < 2 →
  evaluate_topic terms dists rv sample_id topic = Ok pw → pw_jaccard pw = [].
Proof.
  intros Hlen. unfold evaluate_topic.
  destruct (np_array3 terms) as [arr|e] eqn:Harr; [|done]. simpl.
  apply np_array3_Ok in Harr as ->.
  destruct (slice_topic terms topic) as [X|e] eqn:HX; [|done]. simpl.
  apply slice_topic_length in HX. rewrite pdist_single by lia. simpl.
  repeat (match goal with
          | |- context [?m ≫= _] =>
              match type of m with result _ => destruct m; simpl; [|done] end
          end).
  by intros [= <-].
Qed.

Lemma axis_stats_no_pair (arr : list (list float64)) :
  Forall (λ row, row = []) arr → raises (axis_stats arr).
Proof.
  intros Hrows. unfold axis_stats. destruct arr as [|row arr]; [by exists AxisError|].
  apply Forall_cons in Hrows as [-> _]. by exists ValueError.
Qed.

Lemma build_reports_no_pair name s (terms : terms_array) dists (rv : list terms_array)
    (sample_id n_topics : nat) :
  length terms < 2 →
  raises (build_reports name s terms dists rv sample_id n_topics).
Proof.
  intros Hlen. unfold build_reports.
  destruct (mapM _ (seq 0 n_topics)) as [pws|e] eqn:Hpws; [|by exists e]. simpl.
  destruct (getitem (sampling s) sample_id) as [ps|e]; [|by exists e]. simpl.
  destruct (axis_stats_no_pair (pw_jaccard <$> pws)) as [e He].
  { apply mapM_Ok in Hpws. apply Forall_fmap, Forall_forall. intros pw Hpw.
    apply list_elem_of_lookup in Hpw as [i Hi].
    destruct (Forall2_lookup_r _ _ _ _ _ Hpws Hi) as (topic & _ & Heval).
    by apply evaluate_topic_no_pair in Heval. }
  exists e. by rewrite He.
Qed.

Lemma stability_of_sample_short self name rv s (sample_id : nat) (sample : list artifact) :
  length sample < 2 →
  ∃ e, (stability_of_sample self name rv s sample_id sample).1 = Raise e
       ∧ reports (stability_of_sample self name rv s sample_id sample).2 = reports s
       ∧ reports_full (stability_of_sample self name rv s sample_id sample).2
         = reports_full s.
Proof.
  intros Hlen. unfold stability_of_sample.
  destruct (getitem sample 0) as [first|e]; [|by exists e].
  destruct (np_array3 _) as [arr|e]; [|by exists e].
  destruct (build_reports_no_pair name (append_topic_terms s arr)
              ((λ model, _get_top_terms model (n_relevant_top_words self)) <$> sample)
              (term_distribution <$> sample) rv sample_id (n_components first))
    as [e He]; [by rewrite length_fmap|].
  rewrite He. by exists e.
Qed.

Lemma stability_of_samples_short self name rv (todo : list (list artifact))
    (sample : list artifact) :
  sample ∈ todo → length sample < 2 →
  ∀ s sample_id, raises (stability_of_samples self name rv s sample_id todo).1.
Proof.
  intros Hin Hlen. induction todo as [|sample' todo IH]; intros s sample_id;
    [by apply elem_of_nil in Hin|]. simpl.
  destruct (stability_of_sample self name rv s sample_id sample') as [[u|e] s'] eqn:Hpass;
    [|by exists e].
  apply elem_of_cons in Hin as [->|Hin]; [|by apply IH].
  destruct (stability_of_sample_short self name rv s sample_id sample' Hlen) as (e & He & _).
  rewrite Hpass in He. done.
Qed.

Lemma stability_of_models_short self (todo : dict settings) name s (sample : list artifact) :
  (name, s) ∈ todo → sample ∈ samples s → length sample < 2 →
  raises (stability_of_models self todo).1.
Proof.
  intros Hin Hsample Hlen. induction todo as [|[name' s'] todo IH];
    [by apply elem_of_nil in Hin|]. simpl.
  destruct (stability_of_settings self name' s') as [[u|e] s''] eqn:Hfam; [|by exists e].
  apply elem_of_cons in Hin as [[= <- <-]|Hin].
  - unfold stability_of_settings in Hfam.
    destruct (_create_ranking_vectors self s) as [rv|e]; [|done].
    destruct (stability_of_samples_short self name rv (samples s) sample Hsample Hlen s 0)
      as [e He]. rewrite Hfam in He. done.
  - destruct (IH Hin) as [e He].
    destruct (stability_of_models self todo) as [r rest]. simpl in *. by exists e.
Qed.

(** C6. For a run-group of fewer than two runs the pass of
    [_compute_topic_stability] over that run-group raises and appends
    neither a report nor a full report; hence the whole computation raises
    as soon as some family holds such a run-group. *)
Theorem short_run_group_raises self name s (sample : list artifact) :
  length sample < 2 →
  (∀ rv s0 sample_id,
     ∃ e, (stability_of_sample self name rv s0 sample_id sample).1 = Raise e
          ∧ reports (stability_of_sample self name rv s0 sample_id sample).2 = reports s0
          ∧ reports_full (stability_of_sample self name rv s0 sample_id sample).2
            = reports_full s0)
  ∧ ((name, s) ∈ models self → sample ∈ samples s →
     raises (_compute_topic_stability self).1).
Proof.
  intros Hlen. split.
  - intros rv s0 sample_id. by apply stability_of_sample_short.
  - intros Hin Hsample. unfold _compute_topic_stability.
    destruct (stability_of_models_short self (models self) name s sample Hin Hsample Hlen)
      as [e He].
    destruct (stability_of_models self (models self)) as [r m]. by exists e.
Qed.

End ShortGroups.

Example single_run_raises :
  _compute_topic_stability (H:=stable_world) single_run
  = (Raise ValueError,
     Self 1 1 [("sklearn_lda"%string, append_topic_terms single_run_settings [[[1]; [3]]])]).
Proof. by vm_compute. Qed.

(** [n_iterations = 1]: [fit_models] stores the run-group and raises. *)
Example fit_models_single_iteration :
  ∃ self, load_sklearn_lda_data (H:=stable_world) (Self 1 1 []) [] 1 "custom"
            [("n_components"%string, Param t_int "fixed" (VInt 2))] = Ok self
    ∧ fit_models (H:=stable_world) self 0
      = (Raise ValueError,
         Self 1 1 [("sklearn_lda"%string,
                    append_topic_terms single_run_settings [[[1]; [3]]])], 1).
Proof. eexists. split; by vm_compute. Qed.

(** [n_iterations = 0]: every run-group is empty. *)
Example fit_models_no_iteration :
  ∃ self, load_sklearn_lda_data (H:=stable_world) (Self 0 1 []) [] 1 "custom"
            [("n_components"%string, Param t_int "fixed" (VInt 2))] = Ok self
    ∧ (fit_models (H:=stable_world) self 0).1.1 = Raise IndexError.
Proof. eexists. split; by vm_compute. Qed.

Lemma short_run_group_raises_witness :
  length [two_topics] < 2
  ∧ (∀ rv s0 sample_id,
       ∃ e, (stability_of_sample (H:=stable_world) single_run "sklearn_lda"
               rv s0 sample_id [two_topics]).1 = Raise e
            ∧ reports (stability_of_sample (H:=stable_world) single_run "sklearn_lda"
                         rv s0 sample_id [two_topics]).2 = reports s0
            ∧ reports_full (stability_of_sample (H:=stable_world) single_run "sklearn_lda"
                              rv s0 sample_id [two_topics]).2 = reports_full s0)
  ∧ raises (_compute_topic_stability (H:=stable_world) single_run).1.
Proof.
  assert (length [two_topics] < 2) as Hlen by (simpl; lia).
  destruct (short_run_group_raises (H:=stable_world) single_run "sklearn_lda"
              single_run_settings [two_topics] Hlen) as [Hpass Hwhole].
  split; [done|]. split; [done|].
  apply Hwhole; [apply list_elem_of_here|apply list_elem_of_here].
Defined.

(** * Further properties of the code *)

(** ** Jaccard similarity: what its values mean *)

Section JaccardValues.
Implicit Types a b : list nat.

Lemma Qc_of_nat_inj n m : Qc_of_nat n = Qc_of_nat m → n = m.
Proof. intros Heq. apply Z2Qc_inj in Heq. lia. Qed.

Lemma Qc_of_nat_nonzero u : u ≠ 0 → Qc_of_nat u ≠ 0%Qc.
Proof.
  intros Hu Heq. pose proof (Qc_of_nat_pos u Hu) as Hpos.
  rewrite Heq in Hpos. by apply Qclt_not_eq in Hpos.
Qed.

Lemma Ok_Fin_inj (q q' : Qc) : Ok (Fin q) = Ok (Fin q') → q = q'.
Proof.
  intros Heq.
  by apply (f_equal (λ r, match r with Ok (Fin x) => x | _ => 0%Qc end)) in Heq.
Qed.

Lemma quotient_one_inv i u : u ≠ 0 → (Qc_of_nat i / Qc_of_nat u = 1)%Qc → i = u.
Proof.
  intros Hu Hq. apply Qc_of_nat_inj.
  rewrite <- (test_field (Qc_of_nat i) (Qc_of_nat u)) by by apply Qc_of_nat_nonzero.
  by rewrite Hq, Qcmult_1_l.
Qed.

Lemma quotient_zero_inv i u : u ≠ 0 → (Qc_of_nat i / Qc_of_nat u = 0)%Qc → i = 0.
Proof.
  intros Hu Hq. apply Qc_of_nat_inj. rewrite Qc_of_nat_0.
  rewrite <- (test_field (Qc_of_nat i) (Qc_of_nat u)) by by apply Qc_of_nat_nonzero.
  by rewrite Hq, Qcmult_0_l.
Qed.

(** X1. For a non-empty [a], [_jaccard_similarity a b] is 1 exactly when the
    two lists hold the same terms, and 0 exactly when they share none. *)
Theorem jaccard_extremes a b :
  a ≠ [] →
  (_jaccard_similarity a b = Ok (Fin 1) ↔ ∀ x, x ∈ a ↔ x ∈ b)
  ∧ (_jaccard_similarity a b = Ok (Fin 0) ↔ ∀ x, x ∈ a → x ∉ b).
Proof.
  intros Ha. pose proof (union_size_nonzero a b Ha) as Hu.
  rewrite jaccard_value by done.
  set (sa := list_to_set a : gset nat) in *. set (sb := list_to_set b : gset nat) in *.
  assert (sa ∩ sb ⊆ sa ∪ sb) as Hsub.
  { intros x. rewrite elem_of_intersection, elem_of_union. tauto. }
  assert (∀ x, x ∈ sa ↔ x ∈ a) as Hsa by (intros x; apply elem_of_list_to_set).
  assert (∀ x, x ∈ sb ↔ x ∈ b) as Hsb by (intros x; apply elem_of_list_to_set).
  split; split.
  - intros Hq. apply Ok_Fin_inj, quotient_one_inv in Hq; [|done].
    assert (sa ∩ sb ≡ sa ∪ sb) as Heq by (apply set_subseteq_size_equiv; [done|lia]).
    intros x. rewrite <- Hsa, <- Hsb. specialize (Heq x).
    rewrite elem_of_intersection, elem_of_union in Heq. tauto.
  - intros Hsame.
    assert (sa ∩ sb ≡ sa ∪ sb) as Heq.
    { intros x. rewrite elem_of_intersection, elem_of_union, !Hsa, !Hsb.
      specialize (Hsame x). tauto. }
    apply leibniz_equiv in Heq. rewrite Heq. do 2 f_equal.
    by apply quotient_self.
  - intros Hq. apply Ok_Fin_inj, quotient_zero_inv in Hq; [|done].
    apply size_empty_iff in Hq. intros x Hxa Hxb. apply (not_elem_of_empty (C:=gset nat) x).
    rewrite <- Hq, elem_of_intersection, Hsa, Hsb. done.
  - intros Hdisj.
    assert (sa ∩ sb ≡ ∅) as Heq.
    { intros x. rewrite elem_of_intersection, Hsa, Hsb, elem_of_empty.
      split; [intros [Hxa Hxb]; by apply (Hdisj x)|done]. }
    apply leibniz_equiv in Heq. rewrite Heq, size_empty. do 2 f_equal.
    apply quotient_zero.
Qed.

(** X2. [_jaccard_similarity] raises only for two empty lists, and then it
    is [ZeroDivisionError]. *)
Theorem jaccard_raises_iff a b :
  (raises (_jaccard_similarity a b) ↔ a = [] ∧ b = [])
  ∧ (_jaccard_similarity [] [] = Raise ZeroDivisionError).
Proof.
  split; [|done]. split.
  - intros [e He]. destruct a as [|x a].
    + destruct b as [|y b]; [done|].
      rewrite jaccard_comm, jaccard_value in He; done.
    + rewrite jaccard_value in He; done.
  - intros [-> ->]. by exists ZeroDivisionError.
Qed.

End JaccardValues.

Lemma jaccard_extremes_witness :
  [1; 2; 3] ≠ []
  ∧ (_jaccard_similarity [1; 2; 3] [3; 1; 2; 1] = Ok (Fin 1)
     ↔ ∀ x, x ∈ [1; 2; 3] ↔ x ∈ [3; 1; 2; 1])
  ∧ (_jaccard_similarity [1; 2; 3] [3; 1; 2; 1] = Ok (Fin 0)
     ↔ ∀ x, x ∈ [1; 2; 3] → x ∉ [3; 1; 2; 1]).
Proof.
  split; [done|]. apply (jaccard_extremes [1; 2; 3] [3; 1; 2; 1]). done.
Defined.

(** ** Rank vectors: the sentinel and what a vector keeps *)

Section RankVectors.
Implicit Types (terms vocab : list nat) (e : nat).

Lemma index_lt e terms : e ∈ terms → index e terms < length terms.
Proof.
  intros He. apply index_first in He as [Hat _]. by apply lookup_lt_Some in Hat.
Qed.

Lemma index_lookup terms (p : nat) e : NoDup terms → terms !! p = Some e → index e terms = p.
Proof.
  intros Hnd Hp.
  assert (e ∈ terms) as He by (by apply list_elem_of_lookup_2 in Hp).
  apply index_first in He as [Hat _]. by apply (NoDup_lookup terms _ _ e).
Qed.

Lemma distinct_terms_fit terms vocab :
  NoDup terms → (∀ e, e ∈ terms → e ∈ vocab) → length terms ≤ length vocab.
Proof. intros Hnd Hsub. by apply submseteq_length, NoDup_submseteq. Qed.

(** X3. When the terms are distinct and all belong to the vocabulary, as
    they do in the pipeline, the sentinel cannot be mistaken for a rank: an
    entry equals the vocabulary size exactly when its element is absent, and
    the rank of a present element is below the number of terms. *)
Theorem ranking_sentinel_unambiguous terms vocab :
  NoDup terms → (∀ e, e ∈ terms → e ∈ vocab) →
  ∀ (i : nat) e, vocab !! i = Some e →
    (_terms_to_ranking terms vocab !! i = Some (length vocab) ↔ e ∉ terms)
    ∧ (e ∈ terms → ∃ p, _terms_to_ranking terms vocab !! i = Some p
                        ∧ p < length terms ∧ length terms ≤ length vocab).
Proof.
  intros Hnd Hsub i e Hi. pose proof (distinct_terms_fit terms vocab Hnd Hsub) as Hfit.
  rewrite (terms_to_ranking_lookup _ _ _ _ Hi). split.
  - case_bool_decide as He; [|done]. pose proof (index_lt e terms He). split.
    + intros [= Heq]. lia.
    + done.
  - intros He. rewrite bool_decide_eq_true_2 by done. exists (index e terms).
    split; [done|]. split; [by apply index_lt|done].
Qed.

(** Without distinct terms a rank can coincide with the sentinel. *)
Example ranking_sentinel_collision : _terms_to_ranking [5; 5; 7] [5; 7; 9] = [0; 2; 3]
  ∧ _terms_to_ranking [5; 5; 9; 7] [5; 7; 9] = [0; 3; 2].
Proof. done. Qed.

Lemma ranking_agree_lookup (t1 t2 vocab : list nat) (p : nat) e :
  NoDup t1 → (∀ x, x ∈ t1 → x ∈ vocab) →
  _terms_to_ranking t1 vocab = _terms_to_ranking t2 vocab →
  t1 !! p = Some e → t2 !! p = Some e.
Proof.
  intros Hnd Hsub Heq Hp.
  assert (e ∈ t1) as He by (by apply list_elem_of_lookup_2 in Hp).
  destruct (proj1 (list_elem_of_lookup vocab e) (Hsub e He)) as [i Hi].
  pose proof (terms_to_ranking_lookup t1 vocab i e Hi) as H1.
  pose proof (terms_to_ranking_lookup t2 vocab i e Hi) as H2.
  rewrite Heq, H2 in H1. injection H1 as H1.
  rewrite (bool_decide_eq_true_2 (e ∈ t1)), (index_lookup t1 p e) in H1 by done.
  pose proof (distinct_terms_fit t1 vocab Hnd Hsub) as Hfit.
  apply lookup_lt_Some in Hp.
  case_bool_decide as He2; [|lia].
  apply index_first in He2 as [Hat _]. by rewrite H1 in Hat.
Qed.

(** X4. A rank vector keeps the whole top-term list: two lists of distinct
    terms of the vocabulary with the same rank vector are the same list. *)
Theorem ranking_injective (t1 t2 vocab : list nat) :
  NoDup t1 → NoDup t2 →
  (∀ e, e ∈ t1 → e ∈ vocab) → (∀ e, e ∈ t2 → e ∈ vocab) →
  _terms_to_ranking t1 vocab = _terms_to_ranking t2 vocab →
  t1 = t2.
Proof.
  intros Hnd1 Hnd2 Hsub1 Hsub2 Heq. apply list_eq. intros p.
  destruct (t1 !! p) as [e|] eqn:H1.
  - symmetry. by apply (ranking_agree_lookup t1 t2 vocab).
  - destruct (t2 !! p) as [e|] eqn:H2; [|done].
    apply (ranking_agree_lookup t2 t1 vocab) in H2; [congruence|done..].
Qed.

End RankVectors.

Lemma ranking_sentinel_unambiguous_witness :
  NoDup [3; 7; 1] ∧ (∀ e, e ∈ [3; 7; 1] → e ∈ [1; 3; 5; 7; 9])
  ∧ ∀ (i : nat) e, [1; 3; 5; 7; 9] !! i = Some e →
      (_terms_to_ranking [3; 7; 1] [1; 3; 5; 7; 9] !! i = Some 5 ↔ e ∉ [3; 7; 1])
      ∧ (e ∈ [3; 7; 1] → ∃ p, _terms_to_ranking [3; 7; 1] [1; 3; 5; 7; 9] !! i = Some p
                              ∧ p < 3 ∧ 3 ≤ 5).
Proof.
  assert (NoDup [3; 7; 1]) as Hnd by (apply (bool_decide_unpack _); by vm_compute).
  assert (∀ e, e ∈ [3; 7; 1] → e ∈ [1; 3; 5; 7; 9]) as Hsub.
  { intros e He. apply (bool_decide_unpack _).
    repeat (apply elem_of_cons in He as [->|He]; [by vm_compute|]).
    by apply elem_of_nil in He. }
  split; [done|]. split; [done|].
  exact (ranking_sentinel_unambiguous [3; 7; 1] [1; 3; 5; 7; 9] Hnd Hsub).
Defined.

Lemma ranking_injective_witness :
  NoDup [3; 7; 1] ∧ NoDup [3; 7; 1]
  ∧ (∀ e, e ∈ [3; 7; 1] → e ∈ [1; 3; 5; 7; 9])
  ∧ (∀ e, e ∈ [3; 7; 1] → e ∈ [1; 3; 5; 7; 9])
  ∧ _terms_to_ranking [3; 7; 1] [1; 3; 5; 7; 9] = _terms_to_ranking [3; 7; 1] [1; 3; 5; 7; 9]
  ∧ [3; 7; 1] = [3; 7; 1].
Proof.
  assert (NoDup [3; 7; 1]) as Hnd by (apply (bool_decide_unpack _); by vm_compute).
  assert (∀ e, e ∈ [3; 7; 1] → e ∈ [1; 3; 5; 7; 9]) as Hsub.
  { intros e He. apply (bool_decide_unpack _).
    repeat (apply elem_of_cons in He as [->|He]; [by vm_compute|]).
    by apply elem_of_nil in He. }
  do 4 (split; [done|]). split; [done|].
  exact (ranking_injective [3; 7; 1] [3; 7; 1] [1; 3; 5; 7; 9] Hnd Hnd Hsub Hsub eq_refl).
Defined.

(** ** Top terms *)

Section TopTerms.
Context `{External}.

Lemma StronglySorted_reverse {A} (R : relation A) (l : list A) :
  StronglySorted R l → StronglySorted (flip R) (reverse l).
Proof.
  induction 1 as [|x l Hl IH Hx]; [constructor|].
  rewrite reverse_cons. apply StronglySorted_app_2; [|done|repeat constructor].
  intros y z Hy Hz. apply list_elem_of_singleton in Hz as ->.
  rewrite elem_of_reverse in Hy. unfold flip.
  by apply (proj1 (Forall_forall (R x) l) Hx).
Qed.

Lemma top_terms_of_topic (topic : list Qc) (order : list nat) (k : nat) :
  argsort_of topic order →
  let top := take k (reverse order) in
  length top = k `min` length topic
  ∧ NoDup top
  ∧ (∀ e, e ∈ top → e < length topic)
  ∧ StronglySorted (flip Qcle) (weight_of topic <$> top)
  ∧ (∀ e f, e ∈ top → f < length topic → f ∉ top →
       (weight_of topic f ≤ weight_of topic e)%Qc).
Proof.
  intros [Hperm Hsorted] top.
  assert (length order = length topic) as Hlen
    by (by rewrite (Permutation_length Hperm), length_seq).
  assert (NoDup order) as Hnd by (rewrite Hperm; apply NoDup_seq).
  assert (∀ e, e ∈ order ↔ e < length topic) as Hin.
  { intros e. rewrite Hperm, elem_of_seq. lia. }
  assert (top = reverse (drop (length order - k) order)) as Htop by apply take_reverse.
  rewrite <- (take_drop (length order - k) order), fmap_app in Hsorted.
  split; [|split; [|split; [|split]]].
  - unfold top. by rewrite length_take, length_reverse, Hlen.
  - unfold top. apply (sublist_NoDup _ (reverse order));
      [by rewrite reverse_Permutation|apply sublist_take].
  - intros e He. apply Hin. unfold top in He.
    apply elem_of_take in He as (i & Hi & _).
    apply list_elem_of_lookup_2 in Hi. by rewrite elem_of_reverse in Hi.
  - rewrite Htop, fmap_reverse. apply StronglySorted_reverse.
    by apply StronglySorted_app_1_r in Hsorted.
  - intros e f He Hf Hnot. rewrite Htop in He, Hnot.
    rewrite elem_of_reverse in He, Hnot.
    apply Hin in Hf. rewrite <- (take_drop (length order - k) order) in Hf.
    apply elem_of_app in Hf as [Hf|Hf]; [|done].
    eapply (StronglySorted_app_1_elem_of _ _ _ _ _ Hsorted);
      by apply list_elem_of_fmap_2.
Qed.

(** X5. When [argsort] orders each topic's positions by ascending weight,
    [_get_top_terms] returns for each topic [min(n_terms, n_features)]
    distinct feature indices, heaviest first, and no feature left out is
    heavier than one that is listed. *)
Theorem top_terms_heaviest (model : artifact) (k : nat) :
  Forall (λ topic, argsort_of topic (argsort topic)) (components_ model) →
  Forall2 (λ topic top,
             length top = k `min` length topic
             ∧ NoDup top
             ∧ (∀ e, e ∈ top → e < length topic)
             ∧ StronglySorted (flip Qcle) (weight_of topic <$> top)
             ∧ (∀ e f, e ∈ top → f < length topic → f ∉ top →
                  (weight_of topic f ≤ weight_of topic e)%Qc))
          (components_ model) (_get_top_terms model k).
Proof.
  intros Hsort. unfold _get_top_terms. apply Forall2_fmap_r, Forall_Forall2_diag.
  eapply Forall_impl; [exact Hsort|]. intros topic Htopic.
  by apply top_terms_of_topic.
Qed.

End TopTerms.

Lemma top_terms_heaviest_witness :
  Forall (λ topic, argsort_of topic (argsort (External:=stable_world) topic))
         (components_ two_topics)
  ∧ Forall2 (λ topic top,
               length top = 2 `min` length topic
               ∧ NoDup top
               ∧ (∀ e, e ∈ top → e < length topic)
               ∧ StronglySorted (flip Qcle) (weight_of topic <$> top)
               ∧ (∀ e f, e ∈ top → f < length topic → f ∉ top →
                    (weight_of topic f ≤ weight_of topic e)%Qc))
            (components_ two_topics) (_get_top_terms (H:=stable_world) two_topics 2).
Proof.
  assert (Forall (λ topic, argsort_of topic (argsort (External:=stable_world) topic))
                 (components_ two_topics)) as Hsort
    by (apply (bool_decide_unpack _); by vm_compute).
  split; [done|]. exact (top_terms_heaviest (H:=stable_world) two_topics 2 Hsort).
Defined.

Example top_terms_run : _get_top_terms (H:=stable_world) two_topics 2 = [[1; 3]; [3; 2]].
Proof. by vm_compute. Qed.

(** ** The sampler at its edges *)

Section SamplerEdges.
Context `{External}.
Implicit Types (p : param) (params : dict param).

Lemma dict_get_key {V} (d : dict V) (k : string) : k ∈ keys d → ∃ w, dict_get d k = Ok w.
Proof.
  induction d as [|[k' v'] d IH]; simpl; intros Hk; [by apply elem_of_nil in Hk|].
  case_bool_decide as Hkk; [by eexists|].
  apply elem_of_cons in Hk as [->|Hk]; [done|by apply IH].
Qed.

Lemma changing_params_eq params :
  filterM (λ x, p ← dict_get params x; Ok (negb (bool_decide (p_mode p = "fixed"%string))))
          (keys params)
  = Ok (List.filter (λ x, negb (is_fixed params x)) (keys params)).
Proof.
  apply filterM_total. intros x Hx. destruct (dict_get_key params x Hx) as [p Hp].
  unfold is_fixed. by rewrite Hp.
Qed.

Lemma fixed_params_eq params :
  filterM (λ x, p ← dict_get params x; Ok (bool_decide (p_mode p = "fixed"%string)))
          (keys params)
  = Ok (List.filter (is_fixed params) (keys params)).
Proof.
  apply filterM_total. intros x Hx. destruct (dict_get_key params x Hx) as [p Hp].
  unfold is_fixed. by rewrite Hp.
Qed.

Lemma compute_param_combinations_eq params (n : nat) :
  _compute_param_combinations params n =
    mapM (λ vec,
            sample ← set_changing params vec 0
                       (List.filter (λ x, negb (is_fixed params x)) (keys params)) [];
            set_fixed params (List.filter (is_fixed params) (keys params)) sample)
         (i4_sobol_generate (length params) n).
Proof.
  unfold _compute_param_combinations.
  rewrite changing_params_eq. simpl. by rewrite fixed_params_eq.
Qed.

(** X6. When the generator returns no point, as for [n_samples = 0],
    sampling returns the empty list whatever the parameter space holds:
    nothing of the space is looked at beyond its modes. *)
Theorem sampling_without_points params (n : nat) :
  i4_sobol_generate (length params) n = [] →
  _compute_param_combinations params n = Ok [].
Proof. intros Hnone. by rewrite compute_param_combinations_eq, Hnone. Qed.






End SamplerEdges.

Lemma sampling_without_points_witness :
  i4_sobol_generate (External:=scripted []) (length misspelt_space) 0 = []
  ∧ _compute_param_combinations (H:=scripted []) misspelt_space 0 = Ok [].
Proof.
  assert (i4_sobol_generate (External:=scripted []) (length misspelt_space) 0 = [])
    as Hnone by done.
  split; [done|]. exact (sampling_without_points (H:=scripted []) misspelt_space 0 Hnone).
Defined.


(** ** Values drawn for one parameter *)

Section DrawnValues.
Context `{External}.
Implicit Types (p : param) (x y lo hi : Qc).





Lemma range_value_eq p lo hi x :
  range_shape p lo hi →
  _range_to_value (p_values p) x (p_type p) =
    Ok (if bool_decide (p_type p = t_int) then VInt (trunc (lo + (hi - lo) * x))
        else VFloat (lo + (hi - lo) * x)).
Proof.
  intros (a & b & Hv & Ha & Hb & _). rewrite Hv. unfold _range_to_value. simpl.
  by rewrite Ha, Hb.
Qed.


(** X10. Malformed [values] raise: a range needs a list of two numbers and
    a list parameter a non-empty list. *)
Theorem param_value_errors x (ty : pytype) :
  (∀ l, length l < 2 → _range_to_value (VList l) x ty = Raise IndexError)
  ∧ (∀ z, _range_to_value (VInt z) x ty = Raise TypeError)
  ∧ (∀ q, _range_to_value (VFloat q) x ty = Raise TypeError)
  ∧ _range_to_value VNone x ty = Raise TypeError
  ∧ (∀ a b l, raises (as_number a) ∨ raises (as_number b) →
       _range_to_value (VList (a :: b :: l)) x ty = Raise TypeError)
  ∧ _list_to_value (VList []) x ty = Raise IndexError
  ∧ (∀ z, _list_to_value (VInt z) x ty = Raise TypeError)
  ∧ (∀ q, _list_to_value (VFloat q) x ty = Raise TypeError)
  ∧ _list_to_value VNone x ty = Raise TypeError.
Proof.
  split; [|split; [|split; [|split; [|split; [|split; [|split; [|split]]]]]]]; try done.
  - intros [|a [|b l]] Hlen; simpl in *; [done|done|lia].
  - intros a b l Hbad. unfold _range_to_value. simpl.
    destruct b; try done; destruct a; try done;
      destruct Hbad as [[e He]|[e He]]; done.
  - unfold _list_to_value. simpl. unfold getitem_Z, getitem.
    repeat case_bool_decide; done.
Qed.

Lemma set_changing_raises (params : dict param) (vec : list Qc) (name : string) p
    (names : list string) :
  name ∈ names → dict_get params name = Ok p →
  (∀ x, raises (_param_to_value p x)) →
  ∀ (i : nat) (sample : config), raises (set_changing params vec i names sample).
Proof.
  intros Hin Hp Hbad. induction names as [|name' names IH]; intros i sample;
    [by apply elem_of_nil in Hin|]. simpl.
  destruct (dict_get params name') as [p'|e] eqn:Hp'; [|by exists e]. simpl.
  destruct (getitem vec i) as [x|e]; [|by exists e]. simpl.
  destruct (_param_to_value p' x) as [v|e] eqn:Hv; [|by exists e]. simpl.
  apply elem_of_cons in Hin as [->|Hin]; [|by apply IH].
  rewrite Hp in Hp'. injection Hp' as <-. destruct (Hbad x) as [e He]. congruence.
Qed.

(** X11. A varying parameter whose [values] cannot be drawn from stops the
    sampler as soon as there is one point to map: the exception of
    [_param_to_value] (or an earlier one) reaches the caller and no
    configuration list is returned. *)
Theorem sampling_raises_on_malformed (params : dict param) (n : nat) (name : string) p :
  NoDup (keys params) →
  (name, p) ∈ params →
  p_mode p ≠ "fixed"%string →
  (∀ x, raises (_param_to_value p x)) →
  i4_sobol_generate (length params) n ≠ [] →
  raises (_compute_param_combinations params n).
Proof.
  intros Hnd Hin Hmode Hbad Hpoints. rewrite compute_param_combinations_eq.
  destruct (i4_sobol_generate (length params) n) as [|vec points]; [done|].
  pose proof (dict_get_elem_of _ _ _ Hnd Hin) as Hp.
  destruct (set_changing_raises params vec name p
              (List.filter (λ k, negb (is_fixed params k)) (keys params)))
    with (i := 0) (sample := @nil (string * pyval)) as [e He]; [|done|done|].
  - apply list_elem_of_In, filter_In. split.
    + apply list_elem_of_In, list_elem_of_fmap. by exists (name, p).
    + unfold is_fixed. rewrite Hp. by apply negb_true_iff, bool_decide_eq_false.
  - exists e. csimpl. by rewrite He.
Qed.

End DrawnValues.


Lemma sampling_raises_on_malformed_witness :
  NoDup (keys short_range_space)
  ∧ ("n_components"%string, Param t_int "range" (VList [VInt 5])) ∈ short_range_space
  ∧ raises (_compute_param_combinations (H:=scripted []) short_range_space 1).
Proof.
  assert (NoDup (keys short_range_space)) as Hnd
    by (apply (bool_decide_unpack _); by vm_compute).
  assert (("n_components"%string, Param t_int "range" (VList [VInt 5])) ∈ short_range_space)
    as Hin by apply list_elem_of_here.
  split; [done|]. split; [done|].
  apply (sampling_raises_on_malformed (H:=scripted []) short_range_space 1
           "n_components" (Param t_int "range" (VList [VInt 5])) Hnd Hin).
  - done.
  - intros x. by exists IndexError.
  - done.
Defined.


(** ** Registering a data source *)

Section Loading.
Context `{External}.
Implicit Types (self : RobustTopics) (X : matrix) (setup : string).

Lemma load_data_Ok (key : string) (ps : result (dict param)) self X (n : nat) self' :
  load_data key ps self X n = Ok self' →
  (∃ params sampling,
     ps = Ok params ∧ _compute_param_combinations params n = Ok sampling
     ∧ dict_get (models self') key = Ok (fresh_settings n X params sampling))
  ∧ (∀ other, other ≠ key → dict_get (models self') other = dict_get (models self) other)
  ∧ n_iterations self' = n_iterations self
  ∧ n_relevant_top_words self' = n_relevant_top_words self.
Proof.
  unfold load_data. destruct ps as [params|e]; [|done]. simpl.
  destruct (_compute_param_combinations params n) as [sampling|e] eqn:Hs; [|done]. simpl.
  intros [= <-]. simpl. split; [|split; [|done]].
  - exists params, sampling. split; [done|]. split; [done|]. apply dict_get_set_eq.
  - intros other Hne. by apply dict_get_set_ne.
Qed.

(** X12. A successful load stores the family under its own name with the
    sampled configurations and with empty run-groups, top terms and reports
    (whatever was stored under that name before is replaced), and leaves
    every other family and the two settings of the object as they were. *)
Theorem load_registers_family self X (n : nat) setup (custom : dict param) self' :
  (load_sklearn_lda_data self X n setup custom = Ok self' →
   (∃ params sampling,
      lda_params setup custom = Ok params
      ∧ _compute_param_combinations params n = Ok sampling
      ∧ dict_get (models self') "sklearn_lda" = Ok (fresh_settings n X params sampling))
   ∧ (∀ other, other ≠ "sklearn_lda"%string →
        dict_get (models self') other = dict_get (models self) other)
   ∧ n_iterations self' = n_iterations self
   ∧ n_relevant_top_words self' = n_relevant_top_words self)
  ∧ (load_sklearn_nmf_data self X n setup custom = Ok self' →
     (∃ params sampling,
        nmf_params setup custom = Ok params
        ∧ _compute_param_combinations params n = Ok sampling
        ∧ dict_get (models self') "sklearn_nmf" = Ok (fresh_settings n X params sampling))
     ∧ (∀ other, other ≠ "sklearn_nmf"%string →
          dict_get (models self') other = dict_get (models self) other)
     ∧ n_iterations self' = n_iterations self
     ∧ n_relevant_top_words self' = n_relevant_top_words self).
Proof. split; apply load_data_Ok. Qed.

(** X13. A setup other than [simple], [complex] and [custom] makes both
    loaders raise [KeyError], the missing ["params"] entry: nothing is
    sampled and nothing is stored. *)
Theorem load_unknown_setup self X (n : nat) setup (custom : dict param) :
  ¬ known_setup setup →
  load_sklearn_lda_data self X n setup custom = Raise KeyError
  ∧ load_sklearn_nmf_data self X n setup custom = Raise KeyError.
Proof.
  intros Hunknown. unfold known_setup in Hunknown.
  unfold load_sklearn_lda_data, load_sklearn_nmf_data, load_data, lda_params, nmf_params.
  rewrite !bool_decide_eq_false_2 by tauto. done.
Qed.

Lemma int_range_shape (a b : Z) : (a ≤ b)%Z →
  range_shape (int_range a b) (Qc_of_Z a) (Qc_of_Z b).
Proof.
  intros Hab. exists (VInt a), (VInt b). split; [done|]. split; [done|]. split; [done|].
  split; [by apply (proj1 (Z2Qc_inj_le a b))|]. intros _. split; by eexists.
Qed.

Lemma int_range_valid (a b : Z) : (a ≤ b)%Z → valid_param (int_range a b).
Proof.
  intros Hab. right; left. split; [done|]. eexists _, _. by apply int_range_shape.
Qed.

Lemma int_range_sampled (params : dict param) (n : nat) (name : string) (a b : Z) :
  (a ≤ b)%Z →
  unit_cube_points (length params) n →
  valid_space params →
  (name, int_range a b) ∈ params →
  ∃ seq, _compute_param_combinations params n = Ok seq ∧ length seq = n
    ∧ ∀ cfg, cfg ∈ seq → ∃ z, dict_get cfg name = Ok (VInt z) ∧ (a ≤ z ≤ b)%Z.
Proof.
  intros Hab Hpoints [Hnd Hvalid] Hin.
  destruct (sampling_total params n Hpoints Hnd) as (seq & Hseq & Hlen & Hall).
  { eapply Forall_impl; [exact Hvalid|]. intros kv Hkv. by left. }
  exists seq. split; [done|]. split; [done|]. intros cfg Hcfg.
  destruct (Hall cfg name _ Hcfg Hin) as (v & Hv & Hsampled).
  unfold sampled in Hsampled. simpl in Hsampled. destruct Hsampled as (x & Hx & Hdrawn).
  unfold _param_to_value in Hdrawn. simpl in Hdrawn.
  pose proof (range_value_eq (int_range a b) _ _ x (int_range_shape a b Hab)) as Hval.
  simpl in Hval. rewrite Hval in Hdrawn. injection Hdrawn as <-.
  eexists. split; [done|]. apply trunc_between, interpolate_between; [|done].
  by apply (proj1 (Z2Qc_inj_le a b)).
Qed.

Lemma lda_simple_valid : valid_space [("n_components"%string, int_range 5 50)].
Proof.
  split; [apply (bool_decide_unpack _); by vm_compute|].
  apply Forall_cons_2; [|apply Forall_nil_2]. by apply int_range_valid.
Qed.

Lemma lda_complex_valid :
  valid_space [("n_components"%string, int_range 5 50);
               ("learning_decayfloat"%string,
                Param t_float "range" (VList [VFloat (Q2Qc (51 # 100)); VInt 1]))].
Proof.
  split; [apply (bool_decide_unpack _); by vm_compute|].
  apply Forall_cons_2; [|apply Forall_cons_2; [|apply Forall_nil_2]]; simpl.
  - by apply int_range_valid.
  - right; left. split; [done|]. eexists _, _, _, _. split; [done|].
    split; [done|]. split; [done|]. split; [|done].
    apply (bool_decide_unpack _). by vm_compute.
Qed.

Lemma nmf_simple_valid :
  valid_space [("n_components"%string, int_range 5 50);
               ("init"%string, Param t_str "fixed" (VStr "random"))].
Proof.
  split; [apply (bool_decide_unpack _); by vm_compute|].
  apply Forall_cons_2; [|apply Forall_cons_2; [|apply Forall_nil_2]]; simpl.
  - by apply int_range_valid.
  - by left.
Qed.

Lemma load_data_preset (key : string) (params : dict param) self X (n : nat) :
  unit_cube_points (length params) n →
  valid_space params →
  ("n_components"%string, int_range 5 50) ∈ params →
  ∃ self' sampling,
    load_data key (Ok params) self X n = Ok self'
    ∧ dict_get (models self') key = Ok (fresh_settings n X params sampling)
    ∧ length sampling = n
    ∧ ∀ cfg, cfg ∈ sampling →
        ∃ z, dict_get cfg "n_components" = Ok (VInt z) ∧ (5 ≤ z ≤ 50)%Z.
Proof.
  intros Hpoints Hvalid Hin.
  destruct (int_range_sampled params n "n_components" 5 50) as (seq & Hseq & Hlen & Hall);
    [lia|done..|].
  unfold load_data. simpl. rewrite Hseq. simpl. eexists _, seq. split; [done|].
  simpl. split; [apply dict_get_set_eq|]. by split.
Qed.

(** X14. With either built-in preset ([simple] or [complex]) and a
    generator that returns points of the unit cube, both loaders succeed
    and store exactly [n_samples] configurations, each with an integer
    [n_components] between 5 and 50. *)
Theorem load_preset_succeeds self X (n : nat) setup (custom : dict param) :
  (∀ dim, unit_cube_points dim n) →
  setup = "simple"%string ∨ setup = "complex"%string →
  (∃ self' params sampling,
     load_sklearn_lda_data self X n setup custom = Ok self'
     ∧ dict_get (models self') "sklearn_lda" = Ok (fresh_settings n X params sampling)
     ∧ length sampling = n
     ∧ ∀ cfg, cfg ∈ sampling →
         ∃ z, dict_get cfg "n_components" = Ok (VInt z) ∧ (5 ≤ z ≤ 50)%Z)
  ∧ (∃ self' params sampling,
       load_sklearn_nmf_data self X n setup custom = Ok self'
       ∧ dict_get (models self') "sklearn_nmf" = Ok (fresh_settings n X params sampling)
       ∧ length sampling = n
       ∧ ∀ cfg, cfg ∈ sampling →
           ∃ z, dict_get cfg "n_components" = Ok (VInt z) ∧ (5 ≤ z ≤ 50)%Z).
Proof.
  intros Hpoints [-> | ->]; split.
  - destruct (load_data_preset "sklearn_lda" _ self X n (Hpoints _) lda_simple_valid)
      as (self' & sampling & Hload & Hget & Hrest); [apply list_elem_of_here|].
    by eexists self', _, sampling.
  - destruct (load_data_preset "sklearn_nmf" _ self X n (Hpoints _) nmf_simple_valid)
      as (self' & sampling & Hload & Hget & Hrest); [apply list_elem_of_here|].
    by eexists self', _, sampling.
  - destruct (load_data_preset "sklearn_lda" _ self X n (Hpoints _) lda_complex_valid)
      as (self' & sampling & Hload & Hget & Hrest); [apply list_elem_of_here|].
    by eexists self', _, sampling.
  - destruct (load_data_preset "sklearn_nmf" _ self X n (Hpoints _) nmf_complex_valid)
      as (self' & sampling & Hload & Hget & Hrest); [apply list_elem_of_here|].
    by eexists self', _, sampling.
Qed.

End Loading.

Lemma load_unknown_setup_witness :
  ¬ known_setup "fancy"
  ∧ load_sklearn_lda_data (H:=scripted []) (__init__ 10 20) [] 3 "fancy" [] = Raise KeyError
  ∧ load_sklearn_nmf_data (H:=scripted []) (__init__ 10 20) [] 3 "fancy" [] = Raise KeyError.
Proof.
  assert (¬ known_setup "fancy") as Hunknown by (by intros [?|[?|?]]).
  split; [done|].
  exact (load_unknown_setup (H:=scripted []) (__init__ 10 20) [] 3 "fancy" [] Hunknown).
Defined.

Lemma load_preset_succeeds_witness :
  (∀ dim, unit_cube_points (H:=scripted []) dim 3)
  ∧ (∃ self' params sampling,
       load_sklearn_lda_data (H:=scripted []) (__init__ 10 20) [] 3 "complex" [] = Ok self'
       ∧ dict_get (models self') "sklearn_lda" = Ok (fresh_settings 3 [] params sampling)
       ∧ length sampling = 3
       ∧ ∀ cfg, cfg ∈ sampling →
           ∃ z, dict_get cfg "n_components" = Ok (VInt z) ∧ (5 ≤ z ≤ 50)%Z)
  ∧ (∃ self' params sampling,
       load_sklearn_nmf_data (H:=scripted []) (__init__ 10 20) [] 3 "complex" [] = Ok self'
       ∧ dict_get (models self') "sklearn_nmf" = Ok (fresh_settings 3 [] params sampling)
       ∧ length sampling = 3
       ∧ ∀ cfg, cfg ∈ sampling →
           ∃ z, dict_get cfg "n_components" = Ok (VInt z) ∧ (5 ≤ z ≤ 50)%Z).
Proof.
  assert (∀ dim, unit_cube_points (H:=scripted []) dim 3) as Hpoints
    by (intros dim; apply midpoints_in_unit_cube).
  split; [done|].
  exact (load_preset_succeeds (H:=scripted []) (__init__ 10 20) [] 3 "complex" []
           Hpoints (or_intror eq_refl)).
Defined.

Lemma load_registers_family_witness :
  ∃ self',
    load_sklearn_lda_data (H:=scripted []) (__init__ 10 20) [] 3 "simple" [] = Ok self'
    ∧ (∃ params sampling,
         lda_params "simple" [] = Ok params
         ∧ _compute_param_combinations (H:=scripted []) params 3 = Ok sampling
         ∧ dict_get (models self') "sklearn_lda" = Ok (fresh_settings 3 [] params sampling))
    ∧ (∀ other, other ≠ "sklearn_lda"%string →
         dict_get (models self') other = dict_get (models (__init__ 10 20)) other)
    ∧ n_iterations self' = 10 ∧ n_relevant_top_words self' = 20.
Proof.
  eexists. split; [by vm_compute|].
  apply (load_registers_family (H:=scripted []) (__init__ 10 20) [] 3 "simple" []).
  by vm_compute.
Defined.

(** ** The orchestrator: how often it fits, and when it cannot succeed *)

Section FitCounts.
Context `{External}.
Implicit Types (s : settings) (self : RobustTopics) (name : string) (cfg : config).

Lemma fits_per_iteration_le name : fits_per_iteration name ≤ 1.
Proof.
  unfold fits_per_iteration. repeat case_bool_decide; simpl; try lia. congruence.
Qed.

Lemma fit_if_calls (test : bool) est cfg (X : matrix) (acc : list artifact) (calls : nat) :
  ∀ g calls', fit_if test est cfg X acc calls = (Ok g, calls') →
    calls' = calls + (if test then 1 else 0).
Proof.
  intros g calls'. unfold fit_if. destruct test.
  - destruct (fit est cfg X calls); intros [= _ <-]; lia.
  - intros [= _ <-]. lia.
Qed.

Lemma fit_iterations_calls name cfg (X : matrix) (n : nat) :
  ∀ (acc : list artifact) (calls : nat) g calls',
    fit_iterations name cfg X n acc calls = (Ok g, calls') →
    calls' = calls + n * fits_per_iteration name.
Proof.
  induction n as [|n IH]; intros acc calls g calls'; simpl.
  - intros [= _ <-]. lia.
  - destruct (fit_if _ LatentDirichletAllocation cfg X acc calls)
      as [[its1|e] calls1] eqn:H1; [|done].
    destruct (fit_if _ NMF cfg X its1 calls1) as [[its2|e] calls2] eqn:H2; [|done].
    intros Hrest. apply fit_if_calls in H1, H2. apply IH in Hrest.
    unfold fits_per_iteration in *.
    destruct (bool_decide (name = "sklearn_lda"%string));
      destruct (bool_decide (name = "sklearn_nmf"%string)); lia.
Qed.

Lemma fit_samples_calls self name (todo : list config) :
  ∀ s (calls : nat) u s' calls',
    fit_samples self name s todo calls = (Ok u, s', calls') →
    calls' = calls + length todo * (n_iterations self * fits_per_iteration name).
Proof.
  induction todo as [|cfg todo IH]; intros s calls u s' calls'; simpl.
  - intros [= _ _ <-]. lia.
  - destruct (fit_iterations name cfg (data s) (n_iterations self) [] calls)
      as [[g|e] calls1] eqn:Hits; [|done].
    intros Hrest. apply fit_iterations_calls in Hits. apply IH in Hrest.
    rewrite Hrest, Hits. lia.
Qed.

Lemma fit_all_calls self (todo : dict settings) :
  ∀ (calls : nat) u m calls',
    fit_all self todo calls = (Ok u, m, calls') →
    calls' = calls + planned_fits self todo.
Proof.
  unfold planned_fits.
  induction todo as [|[name s] todo IH]; intros calls u m calls'; simpl.
  - intros [= _ _ <-]. lia.
  - destruct (fit_samples self name s (sampling s) calls) as [[[u1|e] s'] calls1] eqn:Hfam;
      [|done].
    destruct (fit_all self todo calls1) as [[r rest] calls2] eqn:Hrest.
    intros [= -> _ <-]. apply fit_samples_calls in Hfam. apply IH in Hrest.
    rewrite Hrest, Hfam, <- Nat.add_assoc. reflexivity.
Qed.

Lemma stability_of_models_samples self (todo : dict settings) :
  Forall2 (λ kv kv', kv'.1 = kv.1 ∧ samples kv'.2 = samples kv.2
                     ∧ sampling kv'.2 = sampling kv.2)
          todo (stability_of_models self todo).2.
Proof.
  induction todo as [|[name s] todo IH]; simpl; [constructor|].
  pose proof (stability_of_settings_extends self name s) as [(_ & Hsampling & _) Hsam].
  destruct (stability_of_settings self name s) as [[u|e] s']; simpl in *.
  - destruct (stability_of_models self todo) as [r rest]. simpl in *. by constructor.
  - constructor; [done|]. clear. induction todo; constructor; done.
Qed.

(** X15. When [fit_models] returns, it has made exactly
    [n_iterations] fits per configuration of every family named
    [sklearn_lda] or [sklearn_nmf], and every family has gained one
    complete run-group per configuration, in the order of the
    configurations. *)
Theorem fit_models_fit_count self (calls : nat) u self' (calls' : nat) :
  fit_models self calls = (Ok u, self', calls') →
  calls' = calls + planned_fits self (models self)
  ∧ Forall2 (refitted self) (models self) (models self').
Proof.
  unfold fit_models. pose proof (fit_all_spec self (models self) calls) as Hspec.
  destruct (fit_all self (models self) calls) as [[[u1|e] m] calls1] eqn:Hfit; [|done].
  simpl in Hspec. unfold _compute_topic_stability. simpl.
  pose proof (stability_of_models_samples (with_models self m) m) as Hsam. simpl in Hsam.
  destruct (stability_of_models (with_models self m) m) as [r m'] eqn:Hstab.
  simpl. intros Heq. injection Heq as -> <- <-. simpl in *.
  split; [by apply fit_all_calls in Hfit|].
  clear Hfit Hstab. revert m' Hsam.
  induction Hspec as [|kv kv1 todo m [Hname (groups & Hkv1 & Hgroups)] _ IH];
    intros m' Hsam.
  - apply Forall2_nil_inv_l in Hsam as ->. constructor.
  - apply Forall2_cons_inv_l in Hsam as (kv2 & m2 & (Hname2 & Hsam2 & _) & Hrest & ->).
    constructor; [|by apply IH]. split; [congruence|]. exists groups. split; [|done].
    rewrite Hsam2, Hkv1. by destruct (add_groups_fields kv.2 groups) as (-> & _).
Qed.

(** X16. With fewer than two iterations [fit_models] cannot return: as soon
    as some family has a configuration, the call raises, either in a fit or
    because the run-groups are too short for the stability computation. *)
Theorem fit_models_needs_two_iterations self (calls : nat) name s :
  n_iterations self < 2 →
  (name, s) ∈ models self →
  sampling s ≠ [] →
  raises (fit_models self calls).1.1.
Proof.
  intros Hn Hin Hcfg. unfold fit_models.
  pose proof (fit_all_spec self (models self) calls) as Hspec.
  destruct (fit_all self (models self) calls) as [[[u|e] m] calls1]; [|by exists e].
  simpl in Hspec. apply list_elem_of_lookup in Hin as [i Hi].
  destruct (Forall2_lookup_l _ _ _ _ _ Hspec Hi)
    as ([name' s'] & Hi' & Hname & groups & Hs' & Hgroups).
  simpl in *. subst name' s'.
  destruct (sampling s) as [|cfg cfgs] eqn:Hsampling; [done|].
  apply Forall2_cons_inv_l in Hgroups as (g & groups' & [Hlen _] & _ & ->).
  pose proof (fits_per_iteration_le name) as Hfpi.
  destruct (stability_of_models_short (with_models self m) m name
              (add_groups s (g :: groups')) g) as [e He].
  - by apply list_elem_of_lookup_2 in Hi'.
  - destruct (add_groups_fields s (g :: groups')) as (-> & _).
    apply elem_of_app. right. apply list_elem_of_here.
  - nia.
  - unfold _compute_topic_stability. simpl.
    destruct (stability_of_models (with_models self m) m) as [r m']. simpl in *.
    by exists e.
Qed.

Lemma stability_of_sample_beyond self name rv s (sample_id : nat) (sample : list artifact) :
  length (sampling s) ≤ sample_id →
  raises (stability_of_sample self name rv s sample_id sample).1.
Proof.
  intros Hbeyond. unfold stability_of_sample.
  destruct (getitem sample 0) as [first|e]; [|by exists e].
  destruct (np_array3 _) as [arr|e]; [|by exists e].
  unfold build_reports.
  destruct (mapM _ (seq 0 (n_components first))) as [pws|e]; [|by exists e]. simpl.
  unfold getitem. rewrite (lookup_ge_None_2 (sampling s) sample_id) by done.
  by exists IndexError.
Qed.

Lemma stability_of_samples_beyond self name rv (todo : list (list artifact)) :
  ∀ s (sample_id : nat),
    todo ≠ [] →
    length (sampling s) < sample_id + length todo →
    raises (stability_of_samples self name rv s sample_id todo).1.
Proof.
  induction todo as [|sample todo IH]; intros s sample_id Hsome Hlen; [done|].
  simpl in *.
  pose proof (stability_of_sample_extends self name rv s sample_id sample)
    as [(_ & Hsampling & _) _].
  destruct (stability_of_sample self name rv s sample_id sample) as [[u|e] s'] eqn:Hpass;
    [|by exists e]. simpl in *.
  destruct (decide (length (sampling s) ≤ sample_id)) as [Hbeyond|Hwithin].
  - destruct (stability_of_sample_beyond self name rv s sample_id sample Hbeyond)
      as [e He]. by rewrite Hpass in He.
  - apply IH; [|rewrite Hsampling; lia]. intros ->. simpl in Hlen. lia.
Qed.

Lemma stability_of_models_beyond self (todo : dict settings) name s :
  (name, s) ∈ todo → length (sampling s) < length (samples s) →
  raises (stability_of_models self todo).1.
Proof.
  intros Hin Hlen. induction todo as [|[name' s'] todo IH];
    [by apply elem_of_nil in Hin|]. simpl.
  destruct (stability_of_settings self name' s') as [[u|e] s''] eqn:Hfam; [|by exists e].
  apply elem_of_cons in Hin as [[= <- <-]|Hin].
  - unfold stability_of_settings in Hfam.
    destruct (_create_ranking_vectors self s) as [rv|e]; [|done].
    destruct (stability_of_samples_beyond self name rv (samples s) s 0) as [e He];
      [by destruct (samples s); simpl in *; [lia|]|simpl; lia|]. by rewrite Hfam in He.
  - destruct (IH Hin) as [e He].
    destruct (stability_of_models self todo) as [r rest]. simpl in *. by exists e.
Qed.

(** X17. One configuration is needed per run-group: when a family holds
    more run-groups than sampled configurations, [_compute_topic_stability]
    raises. *)
Theorem stability_needs_configurations self name s :
  (name, s) ∈ models self →
  length (sampling s) < length (samples s) →
  raises (_compute_topic_stability self).1.
Proof.
  intros Hin Hlen. unfold _compute_topic_stability.
  destruct (stability_of_models_beyond self (models self) name s Hin Hlen) as [e He].
  destruct (stability_of_models self (models self)) as [r m]. by exists e.
Qed.

(** X18. [fit_models] does not clear the run-groups: on a context where
    some family already holds a run-group (as after an earlier
    [fit_models]) the call always raises, whatever the fits return. *)
Theorem fit_models_not_repeatable self (calls : nat) name s :
  (name, s) ∈ models self →
  samples s ≠ [] →
  raises (fit_models self calls).1.1.
Proof.
  intros Hin Hold. unfold fit_models.
  pose proof (fit_all_spec self (models self) calls) as Hspec.
  destruct (fit_all self (models self) calls) as [[[u|e] m] calls1]; [|by exists e].
  simpl in Hspec. apply list_elem_of_lookup in Hin as [i Hi].
  destruct (Forall2_lookup_l _ _ _ _ _ Hspec Hi)
    as ([name' s'] & Hi' & Hname & groups & Hs' & Hgroups).
  simpl in *. subst name' s'. apply Forall2_length in Hgroups.
  destruct (add_groups_fields s groups) as (Hsam & _ & _ & _ & _ & Hsampling).
  destruct (stability_of_models_beyond (with_models self m) m name (add_groups s groups))
    as [e He].
  - by apply list_elem_of_lookup_2 in Hi'.
  - rewrite Hsam, Hsampling, length_app. destruct (samples s); [done|simpl; lia].
  - unfold _compute_topic_stability. simpl.
    destruct (stability_of_models (with_models self m) m) as [r m']. simpl in *.
    by exists e.
Qed.

End FitCounts.

Lemma fit_models_fit_count_witness :
  fit_models (H:=stable_world) loaded_one 0 = (Ok (), fitted_self, 2)
  ∧ 2 = 0 + planned_fits loaded_one (models loaded_one)
  ∧ Forall2 (refitted (H:=stable_world) loaded_one) (models loaded_one) (models fitted_self).
Proof.
  assert (fit_models (H:=stable_world) loaded_one 0 = (Ok (), fitted_self, 2)) as Hrun
    by (by vm_compute).
  split; [done|].
  exact (fit_models_fit_count (H:=stable_world) loaded_one 0 () fitted_self 2 Hrun).
Defined.

Lemma fit_models_needs_two_iterations_witness :
  n_iterations loaded_once < 2
  ∧ raises (fit_models (H:=stable_world) loaded_once 0).1.1.
Proof.
  assert (n_iterations loaded_once < 2) as Hn by (simpl; lia).
  split; [done|].
  refine (fit_models_needs_two_iterations (H:=stable_world) loaded_once 0 "sklearn_lda" _
            Hn _ _); [apply list_elem_of_here|done].
Defined.

Lemma stability_needs_configurations_witness :
  length (sampling overfull) < length (samples overfull)
  ∧ raises (_compute_topic_stability (H:=stable_world)
              (Self 2 1 [("sklearn_lda"%string, overfull)])).1.
Proof.
  assert (length (sampling overfull) < length (samples overfull)) as Hlen by (simpl; lia).
  split; [done|].
  refine (stability_needs_configurations (H:=stable_world)
            (Self 2 1 [("sklearn_lda"%string, overfull)]) "sklearn_lda" overfull _ Hlen).
  apply list_elem_of_here.
Defined.

Lemma fit_models_not_repeatable_witness :
  samples two_groups ≠ []
  ∧ raises (fit_models (H:=stable_world) (Self 2 1 [("sklearn_lda"%string, two_groups)]) 0).1.1.
Proof.
  assert (samples two_groups ≠ []) as Hold by done.
  split; [done|].
  refine (fit_models_not_repeatable (H:=stable_world)
            (Self 2 1 [("sklearn_lda"%string, two_groups)]) 0 "sklearn_lda" two_groups _ Hold).
  apply list_elem_of_here.
Defined.

(** A second [fit_models] on the context the first one returned: both fits
    succeed, and the stability computation raises. *)
Example fit_models_twice :
  (fit_models (H:=scripted (replicate 4 (Ok two_topics))) loaded_one 0).1.1 = Ok ()
  ∧ ∀ self', (fit_models (H:=scripted (replicate 4 (Ok two_topics))) loaded_one 0).1.2 = self' →
      (fit_models (H:=scripted (replicate 4 (Ok two_topics))) self' 2).1.1 = Raise IndexError
      ∧ (fit_models (H:=scripted (replicate 4 (Ok two_topics))) self' 2).2 = 4.
Proof. split; [by vm_compute|]. intros self' <-. split; by vm_compute. Qed.

(** ** What a successful stability computation stores *)

Section Reports.
Context `{External}.
Implicit Types (s : settings) (self : RobustTopics) (name : string).

Lemma reduce_axis1_Ok (f : list float64 → float64) (arr : list (list float64)) v :
  reduce_axis1 f arr = Ok v → arr ≠ [] ∧ length v = length arr.
Proof.
  unfold reduce_axis1. destruct arr as [|row arr]; [done|].
  intros [= <-]. split; [done|]. exact (length_fmap f (row :: arr)).
Qed.

Lemma extremum_axis1_Ok (f : list float64 → float64) (arr : list (list float64)) v :
  extremum_axis1 f arr = Ok v → length v = length arr ∧ Forall (λ row, row ≠ []) arr.
Proof.
  unfold extremum_axis1. destruct arr as [|row arr]; [done|].
  destruct (forallb _ _) eqn:Hrows; [|done].
  intros [= <-]. split; [exact (length_fmap f (row :: arr))|].
  apply Is_true_true_2, forallb_True in Hrows. eapply Forall_impl; [exact Hrows|].
  intros r Hr. by apply bool_decide_unpack in Hr.
Qed.

Lemma axis_stats_Ok (arr : list (list float64)) (st : stats) :
  axis_stats arr = Ok st →
  arr ≠ [] ∧ per_topic (length arr) st ∧ Forall (λ row, row ≠ []) arr.
Proof.
  unfold axis_stats.
  destruct (reduce_axis1 np_mean arr) as [m|e] eqn:Hm; [|done]. simpl.
  destruct (reduce_axis1 np_std arr) as [sd|e] eqn:Hsd; [|done]. simpl.
  destruct (extremum_axis1 np_min arr) as [lo|e] eqn:Hlo; [|done]. simpl.
  destruct (extremum_axis1 np_max arr) as [hi|e] eqn:Hhi; [|done]. simpl.
  intros [= <-]. apply reduce_axis1_Ok in Hm as [Hsome Hm], Hsd as [_ Hsd].
  apply extremum_axis1_Ok in Hlo as [Hlo Hrows], Hhi as [Hhi _].
  by repeat split.
Qed.

Lemma build_reports_Ok name s (terms : terms_array) dists (rv : list terms_array)
    (sample_id n_topics : nat) (r : report) (rf : report_full) :
  build_reports name s terms dists rv sample_id n_topics = Ok (r, rf) →
  ∃ ps, sampling s !! sample_id = Some ps
    ∧ r_model r = name ∧ r_sample_id r = sample_id ∧ r_n_topics r = n_topics
    ∧ r_params r = ps
    ∧ rf_model rf = name ∧ rf_sample_id rf = sample_id ∧ rf_n_topics rf = n_topics
    ∧ rf_params rf = ps
    ∧ 0 < n_topics
    ∧ per_topic n_topics (rf_jaccard rf) ∧ per_topic n_topics (rf_kendalltau rf)
    ∧ per_topic n_topics (rf_spearman rf) ∧ per_topic n_topics (rf_jensenshannon rf)
    ∧ per_topic n_topics (rf_wasserstein rf).
Proof.
  unfold build_reports.
  destruct (mapM _ (seq 0 n_topics)) as [pws|e] eqn:Hpws; [|done]. simpl.
  apply mapM_Ok, Forall2_length in Hpws. rewrite length_seq in Hpws.
  unfold getitem. destruct (sampling s !! sample_id) as [ps|]; [|done]. simpl.
  destruct (axis_stats (pw_jaccard <$> pws)) as [jac|e] eqn:Hjac; [|done]. simpl.
  destruct (axis_stats (pw_kendalls <$> pws)) as [ken|e] eqn:Hken; [|done]. simpl.
  destruct (axis_stats (pw_spearman <$> pws)) as [spe|e] eqn:Hspe; [|done]. simpl.
  destruct (axis_stats (pw_jensen <$> pws)) as [jen|e] eqn:Hjen; [|done]. simpl.
  destruct (axis_stats (pw_wasserstein <$> pws)) as [was|e] eqn:Hwas; [|done]. simpl.
  intros [= <- <-]. simpl. exists ps.
  apply axis_stats_Ok in Hjac as (Hsome & Hjac & _), Hken as (_ & Hken & _),
      Hspe as (_ & Hspe & _), Hjen as (_ & Hjen & _), Hwas as (_ & Hwas & _).
  rewrite length_fmap, <- Hpws in Hjac, Hken, Hspe, Hjen, Hwas.
  repeat (split; [done|]). split; [|done].
  destruct n_topics; [|lia]. by destruct pws.
Qed.

Lemma stability_of_sample_Ok self name rv s (sample_id : nat) (sample : list artifact) u s' :
  stability_of_sample self name rv s sample_id sample = (Ok u, s') →
  ∃ first r rf,
    sample !! 0 = Some first
    ∧ build_reports name (append_topic_terms s (group_terms self sample))
        (group_terms self sample) (term_distribution <$> sample) rv sample_id
        (n_components first) = Ok (r, rf)
    ∧ s' = append_report_full
             (append_report (append_topic_terms s (group_terms self sample)) r) rf.
Proof.
  unfold stability_of_sample, getitem, group_terms.
  destruct (sample !! 0) as [first|]; [|done].
  destruct (np_array3 _) as [arr|e] eqn:Harr; [|done].
  apply np_array3_Ok in Harr as ->.
  destruct (build_reports _ _ _ _ _ _ _) as [[r rf]|e] eqn:Hrep; [|done].
  intros [= _ <-]. by exists first, r, rf.
Qed.

Lemma stability_of_samples_Ok self name rv (todo : list (list artifact)) :
  ∀ s (sample_id : nat) u s',
    stability_of_samples self name rv s sample_id todo = (Ok u, s') →
    samples s' = samples s ∧ sampling s' = sampling s
    ∧ topic_terms s' = topic_terms s ++ (group_terms self <$> todo)
    ∧ ∃ rrs : list (report * report_full),
        reports s' = reports s ++ rrs.*1
        ∧ reports_full s' = reports_full s ++ rrs.*2
        ∧ length rrs = length todo
        ∧ ∀ i rr, rrs !! i = Some rr →
            ∃ ps group first,
              sampling s !! (sample_id + i) = Some ps
              ∧ todo !! i = Some group ∧ group !! 0 = Some first
              ∧ r_model rr.1 = name ∧ r_sample_id rr.1 = sample_id + i
              ∧ r_n_topics rr.1 = n_components first ∧ r_params rr.1 = ps
              ∧ rf_model rr.2 = name ∧ rf_sample_id rr.2 = sample_id + i
              ∧ rf_n_topics rr.2 = n_components first ∧ rf_params rr.2 = ps
              ∧ 0 < n_components first
              ∧ per_topic (n_components first) (rf_jaccard rr.2)
              ∧ per_topic (n_components first) (rf_kendalltau rr.2)
              ∧ per_topic (n_components first) (rf_spearman rr.2)
              ∧ per_topic (n_components first) (rf_jensenshannon rr.2)
              ∧ per_topic (n_components first) (rf_wasserstein rr.2).
Proof.
  induction todo as [|sample todo IH]; intros s sample_id u s'; simpl.
  - intros [= _ <-]. rewrite app_nil_r. repeat (split; [done|]).
    exists []. simpl. rewrite !app_nil_r. repeat (split; [done|]). intros i rr Hi.
    by rewrite lookup_nil in Hi.
  - destruct (stability_of_sample self name rv s sample_id sample) as [[u1|e] s1] eqn:Hpass;
      [|done].
    apply stability_of_sample_Ok in Hpass as (first & r & rf & Hfirst & Hrep & ->).
    intros Hrest. apply IH in Hrest as (Hsam & Hsampling & Hterms & rrs & Hr & Hrf & Hlen & Hall).
    simpl in *. apply build_reports_Ok in Hrep as (ps & Hps & Hrep). simpl in Hps.
    split; [done|]. split; [done|]. split; [by rewrite Hterms, <- app_assoc|].
    exists ((r, rf) :: rrs). simpl.
    split; [by rewrite Hr, <- app_assoc|]. split; [by rewrite Hrf, <- app_assoc|].
    split; [by rewrite Hlen|]. intros [|i] rr Hi; simpl in *.
    + injection Hi as <-. exists ps, sample, first. rewrite Nat.add_0_r. simpl.
      split; [done|]. split; [done|]. split; [done|]. exact Hrep.
    + destruct (Hall i rr Hi) as (ps' & group & first' & Hps' & Hrest).
      exists ps', group, first'. replace (sample_id + S i) with (S sample_id + i) by lia.
      split; [done|]. exact Hrest.
Qed.

Lemma stability_of_settings_Ok self name s u s' :
  stability_of_settings self name s = (Ok u, s') → assessed self (name, s) (name, s').
Proof.
  unfold stability_of_settings.
  destruct (_create_ranking_vectors self s) as [rv|e]; [|done].
  intros Hloop. apply stability_of_samples_Ok in Hloop
    as (Hsam & _ & Hterms & rrs & Hr & Hrf & Hlen & Hall).
  split; [done|]. split; [done|]. split; [done|]. exists rrs.
  repeat (split; [done|]). intros i rr Hi.
  destruct (Hall i rr Hi) as (ps & group & first & Hps & Hgroup & Hfirst & Hm & Hid & Hn & Hp
                              & Hm' & Hid' & Hn' & Hp' & Hpos & Hshape).
  simpl in *. unfold report_of, heading. rewrite Hm, Hid, Hn, Hp, Hm', Hid', Hn', Hp'.
  split; [repeat (split; [done|]); by exists group, first|].
  split; [repeat (split; [done|]); by exists group, first|].
  split; [done|]. exact Hshape.
Qed.

Lemma stability_of_models_Ok self (todo : dict settings) u m :
  stability_of_models self todo = (Ok u, m) → Forall2 (assessed self) todo m.
Proof.
  revert m. induction todo as [|[name s] todo IH]; intros m; simpl.
  - intros [= _ <-]. constructor.
  - destruct (stability_of_settings self name s) as [[u1|e] s'] eqn:Hfam; [|done].
    destruct (stability_of_models self todo) as [r rest] eqn:Hrest.
    intros [= -> <-]. constructor; [by eapply stability_of_settings_Ok|by apply IH].
Qed.

(** X19. When [_compute_topic_stability] returns, every family has gained,
    per run-group and in order, the array of its top terms, one report and
    one full report. The report of run-group [i] names the family, [i], the
    number of topics of the group's first run and the [i]-th sampled
    configuration; the full report gives one mean, deviation, minimum and
    maximum per topic for each of the five measures, and there is at least
    one topic. *)
Theorem stability_reports_describe_groups self u self' :
  _compute_topic_stability self = (Ok u, self') →
  n_iterations self' = n_iterations self
  ∧ n_relevant_top_words self' = n_relevant_top_words self
  ∧ Forall2 (assessed self) (models self) (models self').
Proof.
  unfold _compute_topic_stability.
  destruct (stability_of_models self (models self)) as [r m] eqn:Hloop.
  intros [= -> <-]. simpl. split; [done|]. split; [done|].
  by eapply stability_of_models_Ok.
Qed.

Lemma pdist_length {A} (metric : A → A → result float64) (X : list A) (v : list float64) :
  pdist metric X = Ok v → 2 * length v = twice_pairs (length X).
Proof.
  unfold twice_pairs. revert v. induction X as [|x X IH]; intros v; simpl.
  - by intros [= <-].
  - destruct (mapM (metric x) X) as [row|e] eqn:Hrow; [|done]. simpl.
    destruct (pdist metric X) as [others|e]; [|done]. simpl.
    intros [= <-]. apply mapM_Ok, Forall2_length in Hrow.
    specialize (IH others eq_refl). rewrite length_app, <- Hrow, Nat.sub_0_r.
    destruct X as [|y X]; simpl in *; [lia|]. rewrite Nat.sub_0_r in IH. nia.
Qed.

(** X20. For one topic of a run-group of [n] runs, each of the five
    similarity vectors holds one value per unordered pair of runs,
    [n * (n - 1) / 2] of them. *)
Theorem evaluate_topic_pair_counts (terms : terms_array) dists (rv : list terms_array)
    (arr : terms_array) (sample_id topic : nat) (pw : pairwise) :
  length dists = length terms →
  rv !! sample_id = Some arr → length arr = length terms →
  evaluate_topic terms dists rv sample_id topic = Ok pw →
  2 * length (pw_jaccard pw) = twice_pairs (length terms)
  ∧ 2 * length (pw_jensen pw) = twice_pairs (length terms)
  ∧ 2 * length (pw_wasserstein pw) = twice_pairs (length terms)
  ∧ 2 * length (pw_kendalls pw) = twice_pairs (length terms)
  ∧ 2 * length (pw_spearman pw) = twice_pairs (length terms).
Proof.
  intros Hdists Hrv Harr. unfold evaluate_topic, getitem. rewrite Hrv. simpl.
  destruct (np_array3 terms) as [a|e] eqn:Ha; [|done]. simpl.
  apply np_array3_Ok in Ha as ->.
  destruct (slice_topic terms topic) as [X|e] eqn:HX; [|done]. simpl.
  destruct (pdist _jaccard_similarity X) as [sim|e] eqn:Hsim; [|done]. simpl.
  destruct (np_array3 dists) as [d|e] eqn:Hd; [|done]. simpl.
  apply np_array3_Ok in Hd as ->.
  destruct (slice_topic dists topic) as [D|e] eqn:HD; [|done]. simpl.
  destruct (pdist _jenson_similarity D) as [jen|e] eqn:Hjen; [|done]. simpl.
  destruct (pdist _wasserstein_similarity D) as [wasser|e] eqn:Hwas; [|done]. simpl.
  destruct (slice_topic arr topic) as [R|e] eqn:HR; [|done]. simpl.
  destruct (pdist _kendalls R) as [ken|e] eqn:Hken; [|done]. simpl.
  destruct (pdist _spear R) as [spear|e] eqn:Hspear; [|done]. simpl.
  intros [= <-]. simpl.
  apply slice_topic_length in HX, HD, HR.
  apply pdist_length in Hsim, Hjen, Hwas, Hken, Hspear.
  rewrite HX in Hsim. rewrite HD, Hdists in Hjen, Hwas. rewrite HR, Harr in Hken, Hspear.
  done.
Qed.

End Reports.

Lemma stability_reports_describe_groups_witness :
  _compute_topic_stability (H:=stable_world) fitted_unassessed = (Ok (), fitted_self)
  ∧ n_iterations fitted_self = n_iterations fitted_unassessed
  ∧ n_relevant_top_words fitted_self = n_relevant_top_words fitted_unassessed
  ∧ Forall2 (assessed (H:=stable_world) fitted_unassessed)
      (models fitted_unassessed) (models fitted_self).
Proof.
  assert (_compute_topic_stability (H:=stable_world) fitted_unassessed = (Ok (), fitted_self))
    as Hrun by (by vm_compute).
  split; [done|].
  exact (stability_reports_describe_groups (H:=stable_world) fitted_unassessed ()
           fitted_self Hrun).
Defined.

Lemma evaluate_topic_pair_counts_witness :
  first_topic_pairs = Ok (Pairwise [Fin 1] [Fin 1] [Fin 1] [Fin 0] [Fin 0])
  ∧ 2 * length [Fin 1] = twice_pairs 2.
Proof.
  assert (first_topic_pairs = Ok (Pairwise [Fin 1] [Fin 1] [Fin 1] [Fin 0] [Fin 0])) as Hrun
    by (apply (bool_decide_unpack _); by vm_compute).
  split; [done|].
  exact (proj1 (evaluate_topic_pair_counts (H:=stable_world) [[[1]; [3]]; [[1]; [3]]]
                  (term_distribution <$> two_runs) [[[[0; 2]; [2; 0]]; [[0; 2]; [2; 0]]]]
                  [[[0; 2]; [2; 0]]; [[0; 2]; [2; 0]]] 0 0 _ eq_refl eq_refl eq_refl Hrun)).
Defined.

(** ** The two views: what they print, and when they cannot *)

Section Views.
Context `{External}.
Implicit Types (s : settings) (self : RobustTopics) (tt : terms_array).

Lemma getitem_Ok {A} (l : list A) (i : nat) (x : A) : getitem l i = Ok x ↔ l !! i = Some x.
Proof. unfold getitem. destruct (l !! i); split; congruence. Qed.

Lemma getitem_Raise {A} (l : list A) (i : nat) e : getitem l i = Raise e → e = IndexError.
Proof. unfold getitem. destruct (l !! i); congruence. Qed.

Lemma mapM_Raise {A B} (f : A → result B) (l : list A) e :
  mapM f l = Raise e → ∃ x, x ∈ l ∧ f x = Raise e.
Proof.
  induction l as [|x l IH]; csimpl; [done|].
  destruct (f x) as [y|e'] eqn:Hx; simpl.
  - destruct (mapM f l) as [ys|e'] eqn:Hl; simpl; [done|].
    intros [= ->]. destruct (IH eq_refl) as (x' & Hin & Hx').
    exists x'. split; [by apply list_elem_of_further|done].
  - intros [= ->]. exists x. split; [apply list_elem_of_here|done].
Qed.

Lemma mapM_raises_at {A B} (f : A → result B) (l : list A) (x : A) :
  x ∈ l → raises (f x) → raises (mapM f l).
Proof.
  intros Hin [e He]. destruct (mapM f l) as [ys|e'] eqn:Hl; [|by exists e'].
  apply mapM_Ok in Hl. apply list_elem_of_lookup in Hin as [i Hi].
  destruct (Forall2_lookup_l _ _ _ _ _ Hl Hi) as (y & _ & Hy). congruence.
Qed.

Lemma names_of (feature_names : list string) (l : list nat) (names : list string) :
  mapM (getitem feature_names) l = Ok names →
  Forall2 (λ i nm, feature_names !! i = Some nm) l names.
Proof.
  intros Hnames. apply mapM_Ok in Hnames. eapply Forall2_impl; [exact Hnames|].
  intros i nm. apply getitem_Ok.
Qed.

Lemma concat_lookup_pairs {A} (lines : list (list A)) :
  Forall (λ l, length l = 2) lines →
  length (concat lines) = 2 * length lines
  ∧ ∀ k a b, lines !! k = Some [a; b] →
      concat lines !! (2 * k) = Some a ∧ concat lines !! (2 * k + 1) = Some b.
Proof.
  induction 1 as [|line lines Hline _ [IHlen IH]].
  - split; [done|]. intros k a b Hk. by rewrite lookup_nil in Hk.
  - destruct line as [|a0 [|b0 [|]]]; simpl in Hline; try lia.
    split; [simpl; lia|]. intros [|k] a b Hk; simpl in Hk.
    + by injection Hk as -> ->.
    + destruct (IH k a b Hk) as [Hfst Hsnd].
      replace (2 * S k) with (S (S (2 * k))) by lia.
      replace (S (S (2 * k)) + 1) with (S (S (2 * k + 1))) by lia.
      split; [exact Hfst|exact Hsnd].
Qed.

Lemma intersect_fold_Raise topic (runs : terms_array) (acc : result (gset nat)) e :
  foldl (intersect_step topic) acc runs = Raise e →
  acc = Raise e ∨ e = IndexError.
Proof.
  revert acc. induction runs as [|terms runs IH]; intros acc; simpl; [by left|].
  intros Hfold. destruct (IH _ Hfold) as [Hstep|]; [|by right].
  unfold intersect_step in Hstep. destruct acc as [X|e']; simpl in Hstep; [|by left].
  right. destruct (getitem terms topic) as [t|e'] eqn:Ht; simpl in Hstep; [done|].
  injection Hstep as ->. by eapply getitem_Raise.
Qed.

Lemma topic_intersection_Raise tt topic e :
  topic_intersection tt topic = Raise e → e = IndexError.
Proof.
  unfold topic_intersection.
  destruct (getitem tt topic) as [run|e'] eqn:Hrun; simpl;
    [|intros [= <-]; by eapply getitem_Raise].
  destruct (getitem run 0) as [start|e'] eqn:Hstart; simpl;
    [|intros [= <-]; by eapply getitem_Raise].
  intros Hfold. by apply intersect_fold_Raise in Hfold as [|].
Qed.

(** X21. For every topic the set [analyse_sample] builds holds only terms
    that the topic has in every run; for topic 0 it holds all of them. *)
Theorem topic_intersection_common_terms tt topic (X : gset nat) :
  topic_intersection tt topic = Ok X →
  (∀ e, e ∈ X → ∀ terms, terms ∈ tt → ∃ t, terms !! topic = Some t ∧ e ∈ t)
  ∧ (topic = 0 →
     ∀ e, (∀ terms, terms ∈ tt → ∃ t, terms !! 0 = Some t ∧ e ∈ t) → e ∈ X).
Proof.
  intros HX. apply topic_intersection_spec in HX as (run & start & Hrun & Hstart & HX).
  split.
  - intros e He. by apply HX in He as [_ Hall].
  - intros -> e Hall. apply HX. split; [|done].
    destruct (Hall run) as (t & Ht & He); [by eapply list_elem_of_lookup_2|]. congruence.
Qed.

(** What one pass of the loop over the topics gives. *)
Lemma analyse_topic_Ok sample_id (feature_names : list string) topic line s :
  (tt ← getitem (topic_terms s) sample_id;
   inter ← topic_intersection tt topic;
   names ← mapM (getitem feature_names) (elements inter);
   Ok [("Topic: " +:+ pretty topic)%string; join " " names]) = Ok line →
  ∃ tt X names,
    topic_terms s !! sample_id = Some tt ∧ topic_intersection tt topic = Ok X
    ∧ mapM (getitem feature_names) (elements X) = Ok names
    ∧ line = [("Topic: " +:+ pretty topic)%string; join " " names].
Proof.
  destruct (getitem (topic_terms s) sample_id) as [tt|e] eqn:Htt; [|done]. simpl.
  destruct (topic_intersection tt topic) as [X|e] eqn:HX; [|done]. simpl.
  destruct (mapM (getitem feature_names) (elements X)) as [names|e] eqn:Hnames; [|done].
  simpl. intros [= <-]. exists tt, X, names. by apply getitem_Ok in Htt.
Qed.

Lemma analyse_topic_Raise sample_id (feature_names : list string) topic e s :
  (tt ← getitem (topic_terms s) sample_id;
   inter ← topic_intersection tt topic;
   names ← mapM (getitem feature_names) (elements inter);
   Ok [("Topic: " +:+ pretty topic)%string; join " " names]) = Raise e →
  e = IndexError.
Proof.
  destruct (getitem (topic_terms s) sample_id) as [tt|e'] eqn:Htt; simpl;
    [|intros [= <-]; by eapply getitem_Raise].
  destruct (topic_intersection tt topic) as [X|e'] eqn:HX; simpl;
    [|intros [= <-]; by eapply topic_intersection_Raise].
  destruct (mapM (getitem feature_names) (elements X)) as [names|e'] eqn:Hnames; simpl; [done|].
  intros [= <-]. apply mapM_Raise in Hnames as (i & _ & Hi). by eapply getitem_Raise.
Qed.

(** X22. What [analyse_sample] prints when it returns: the heading, then
    for every topic of the first run a line with its number and a line
    with the names of the terms of the set built for it. The run-group
    then has at least as many runs as topics. *)
Theorem analyse_sample_prints self model sample_id (feature_names : list string)
    (out : list string) :
  analyse_sample self model sample_id feature_names = Ok out →
  ∃ s group first,
    dict_get (models self) model = Ok s
    ∧ samples s !! sample_id = Some group ∧ group !! 0 = Some first
    ∧ out !! 0 = Some "Intersecting words for each topic"%string
    ∧ length out = 1 + 2 * length (components_ first)
    ∧ ∀ topic, topic < length (components_ first) →
        ∃ tt X names,
          topic_terms s !! sample_id = Some tt ∧ topic < length tt
          ∧ topic_intersection tt topic = Ok X
          ∧ out !! (1 + 2 * topic) = Some ("Topic: " +:+ pretty topic)%string
          ∧ out !! (1 + (2 * topic + 1)) = Some (join " " names)
          ∧ Forall2 (λ i nm, feature_names !! i = Some nm) (elements X) names.
Proof.
  unfold analyse_sample.
  destruct (dict_get (models self) model) as [s|e] eqn:Hs; [|done]. simpl.
  destruct (getitem (samples s) sample_id) as [group|e] eqn:Hgroup; [|done]. simpl.
  destruct (getitem group 0) as [first|e] eqn:Hfirst; [|done]. simpl.
  destruct (mapM _ (seq 0 (length (components_ first)))) as [lines|e] eqn:Hlines; [|done].
  simpl. intros [= <-]. apply getitem_Ok in Hgroup, Hfirst.
  exists s, group, first. repeat (split; [done|]).
  apply mapM_Ok in Hlines.
  assert (Forall (λ l : list string, length l = 2) lines) as Hshape.
  { apply Forall_forall. intros line Hline. apply list_elem_of_lookup in Hline as [k Hk].
    destruct (Forall2_lookup_r _ _ _ _ _ Hlines Hk) as (topic & _ & Hpass).
    by apply analyse_topic_Ok in Hpass as (? & ? & ? & _ & _ & _ & ->). }
  destruct (concat_lookup_pairs lines Hshape) as [Hlen Hat].
  split.
  { simpl. rewrite Hlen. apply Forall2_length in Hlines. rewrite length_seq in Hlines.
    by rewrite Hlines. }
  intros topic Htopic.
  destruct (Forall2_lookup_l _ _ _ _ _ Hlines (lookup_seq_lt 0 _ _ Htopic))
    as (line & Hline & Hpass).
  apply analyse_topic_Ok in Hpass as (tt & X & names & Htt & HX & Hnames & ->).
  exists tt, X, names. destruct (Hat _ _ _ Hline) as [Hfst Hsnd].
  split; [done|]. split.
  { apply topic_intersection_spec in HX as (run & _ & Hrun & _).
    by eapply lookup_lt_Some. }
  split; [done|]. split; [done|]. split; [done|]. by apply names_of.
Qed.

(** X23. With fewer runs in the run-group than topics in its first run,
    [analyse_sample] raises [IndexError]. *)
Theorem analyse_sample_needs_runs self model sample_id (feature_names : list string)
    s group first tt :
  dict_get (models self) model = Ok s →
  samples s !! sample_id = Some group → group !! 0 = Some first →
  topic_terms s !! sample_id = Some tt →
  length tt < length (components_ first) →
  analyse_sample self model sample_id feature_names = Raise IndexError.
Proof.
  intros Hs Hgroup Hfirst Htt Hruns. unfold analyse_sample. rewrite Hs. simpl.
  apply getitem_Ok in Hgroup, Hfirst. rewrite Hgroup. simpl. rewrite Hfirst. simpl.
  destruct (mapM _ (seq 0 (length (components_ first)))) as [lines|e] eqn:Hlines; simpl.
  - apply mapM_Ok in Hlines.
    destruct (Forall2_lookup_l _ _ _ _ _ Hlines (lookup_seq_lt 0 _ _ Hruns))
      as (line & _ & Hpass).
    apply analyse_topic_Ok in Hpass as (tt' & X & _ & Htt' & HX & _).
    apply topic_intersection_spec in HX as (run & _ & Hrun & _).
    apply lookup_lt_Some in Hrun. rewrite Htt in Htt'. injection Htt' as <-. lia.
  - apply mapM_Raise in Hlines as (topic & _ & Hpass).
    by apply analyse_topic_Raise in Hpass as ->.
Qed.

(** X24. What [display_topics] prints when it returns: for every topic of
    the chosen run a line with its number and a line with the names of the
    terms [_get_top_terms] gives for it, in the same order. *)
Theorem display_topics_shows_top_terms self model (sample_id model_number : nat)
    (feature_names : list string) (no_top_words : nat) (out : list string) :
  display_topics self model sample_id model_number feature_names no_top_words = Ok out →
  ∃ s group run,
    dict_get (models self) model = Ok s
    ∧ samples s !! sample_id = Some group ∧ group !! model_number = Some run
    ∧ length out = 2 * length (components_ run)
    ∧ ∀ k terms, _get_top_terms run no_top_words !! k = Some terms →
        ∃ names,
          out !! (2 * k) = Some ("Topic " +:+ pretty k +:+ ":")%string
          ∧ out !! (2 * k + 1) = Some (join " " names)
          ∧ Forall2 (λ i nm, feature_names !! i = Some nm) terms names.
Proof.
  unfold display_topics.
  destruct (dict_get (models self) model) as [s|e] eqn:Hs; [|done]. simpl.
  destruct (getitem (samples s) sample_id) as [group|e] eqn:Hgroup; [|done]. simpl.
  destruct (getitem group model_number) as [run|e] eqn:Hrun; [|done]. simpl.
  destruct (mapM _ (zip _ _)) as [lines|e] eqn:Hlines; [|done].
  simpl. intros [= <-]. apply getitem_Ok in Hgroup, Hrun.
  exists s, group, run. repeat (split; [done|]).
  apply mapM_Ok in Hlines.
  assert (Forall (λ l : list string, length l = 2) lines) as Hshape.
  { apply Forall_forall. intros line Hline. apply list_elem_of_lookup in Hline as [k Hk].
    destruct (Forall2_lookup_r _ _ _ _ _ Hlines Hk) as (it & _ & Hpass). simpl in Hpass.
    destruct (mapM _ _) as [names|e]; [|done]. by injection Hpass as <-. }
  destruct (concat_lookup_pairs lines Hshape) as [Hlen Hat].
  split.
  { rewrite Hlen. apply Forall2_length in Hlines.
    rewrite length_zip, length_seq, Nat.min_id in Hlines. by rewrite Hlines. }
  intros k terms Hk. unfold _get_top_terms in Hk. rewrite list_lookup_fmap in Hk.
  destruct (components_ run !! k) as [topic|] eqn:Htopic; [|done].
  simpl in Hk. injection Hk as <-.
  assert (zip (seq 0 (length (components_ run))) (components_ run) !! k = Some (k, topic))
    as Hit.
  { apply lookup_zip_with_Some. exists k, topic. split; [done|]. split; [|done].
    apply lookup_seq_lt. by eapply lookup_lt_Some. }
  destruct (Forall2_lookup_l _ _ _ _ _ Hlines Hit) as (line & Hline & Hpass).
  simpl in Hpass.
  destruct (mapM (getitem feature_names) _) as [names|e] eqn:Hnames; [|done].
  simpl in Hpass. injection Hpass as <-. exists names.
  destruct (Hat _ _ _ Hline) as [Hfst Hsnd]. split; [done|]. split; [done|].
  by apply names_of.
Qed.

(** X25. [rank_models] can return nothing but the empty list, and does so
    exactly when no family holds a report. *)
Theorem rank_models_only_empty self (weights : list float64) (ranking : dict nat)
    (l : list report) :
  rank_models self weights ranking = Ok l ↔ all_reports self = [] ∧ l = [].
Proof.
  unfold rank_models. destruct (all_reports self) as [|s rest]; csimpl.
  - split; [by intros [= <-]|by intros [_ ->]].
  - rewrite rank_key_raises. simpl. split; [done|by intros [? _]].
Qed.

End Views.

Lemma topic_intersection_common_terms_witness :
  topic_intersection [[[1]; [3]]; [[1]; [3]]] 0 = Ok {[1]}
  ∧ (∀ e, e ∈ ({[1]} : gset nat) →
       ∀ terms, terms ∈ [[[1]; [3]]; [[1]; [3]]] → ∃ t, terms !! 0 = Some t ∧ e ∈ t)
  ∧ (0 = 0 →
     ∀ e, (∀ terms, terms ∈ [[[1]; [3]]; [[1]; [3]]] → ∃ t, terms !! 0 = Some t ∧ e ∈ t) →
          e ∈ ({[1]} : gset nat)).
Proof.
  assert (topic_intersection [[[1]; [3]]; [[1]; [3]]] 0 = Ok {[1]}) as Hrun
    by (apply (bool_decide_unpack _); by vm_compute).
  split; [done|].
  exact (topic_intersection_common_terms [[[1]; [3]]; [[1]; [3]]] 0 {[1]} Hrun).
Defined.

Lemma analyse_sample_prints_witness :
  analyse_sample fitted_self "sklearn_lda" 0 four_names
  = Ok ["Intersecting words for each topic"; "Topic: 0"; "b"; "Topic: 1"; EmptyString]%string
  ∧ ∃ s group first,
      dict_get (models fitted_self) "sklearn_lda" = Ok s
      ∧ samples s !! 0 = Some group ∧ group !! 0 = Some first
      ∧ ["Intersecting words for each topic"; "Topic: 0"; "b"; "Topic: 1"; EmptyString]%string
          !! 0 = Some "Intersecting words for each topic"%string
      ∧ length ["Intersecting words for each topic"; "Topic: 0"; "b"; "Topic: 1";
                EmptyString]%string = 1 + 2 * length (components_ first)
      ∧ ∀ topic, topic < length (components_ first) →
          ∃ tt X names,
            topic_terms s !! 0 = Some tt ∧ topic < length tt
            ∧ topic_intersection tt topic = Ok X
            ∧ ["Intersecting words for each topic"; "Topic: 0"; "b"; "Topic: 1";
               EmptyString]%string !! (1 + 2 * topic)
              = Some ("Topic: " +:+ pretty topic)%string
            ∧ ["Intersecting words for each topic"; "Topic: 0"; "b"; "Topic: 1";
               EmptyString]%string !! (1 + (2 * topic + 1))
              = Some (join " " names)
            ∧ Forall2 (λ i nm, four_names !! i = Some nm) (elements X) names.
Proof.
  assert (analyse_sample fitted_self "sklearn_lda" 0 four_names
          = Ok ["Intersecting words for each topic"; "Topic: 0"; "b"; "Topic: 1";
                EmptyString]%string) as Hrun by (by vm_compute).
  split; [done|].
  exact (analyse_sample_prints fitted_self "sklearn_lda" 0 four_names _ Hrun).
Defined.

Lemma analyse_sample_needs_runs_witness :
  length [[[1]; [3]]] < length (components_ two_topics)
  ∧ analyse_sample (Self 1 1 [("sklearn_lda"%string, one_run_two_topics)])
      "sklearn_lda" 0 four_names = Raise IndexError.
Proof.
  assert (length [[[1]; [3]]] < length (components_ two_topics)) as Hruns by (simpl; lia).
  split; [done|].
  exact (analyse_sample_needs_runs (Self 1 1 [("sklearn_lda"%string, one_run_two_topics)])
           "sklearn_lda" 0 four_names one_run_two_topics [two_topics] two_topics
           [[[1]; [3]]] eq_refl eq_refl eq_refl eq_refl Hruns).
Defined.

Lemma display_topics_shows_top_terms_witness :
  display_topics (H:=stable_world) fitted_self "sklearn_lda" 0 0 four_names 1
  = Ok ["Topic 0:"; "b"; "Topic 1:"; "d"]%string
  ∧ ∃ s group run,
      dict_get (models fitted_self) "sklearn_lda" = Ok s
      ∧ samples s !! 0 = Some group ∧ group !! 0 = Some run
      ∧ length ["Topic 0:"; "b"; "Topic 1:"; "d"]%string = 2 * length (components_ run)
      ∧ ∀ k terms, _get_top_terms (H:=stable_world) run 1 !! k = Some terms →
          ∃ names,
            ["Topic 0:"; "b"; "Topic 1:"; "d"]%string !! (2 * k)
            = Some ("Topic " +:+ pretty k +:+ ":")%string
            ∧ ["Topic 0:"; "b"; "Topic 1:"; "d"]%string !! (2 * k + 1)
              = Some (join " " names)
            ∧ Forall2 (λ i nm, four_names !! i = Some nm) terms names.
Proof.
  assert (display_topics (H:=stable_world) fitted_self "sklearn_lda" 0 0 four_names 1
          = Ok ["Topic 0:"; "b"; "Topic 1:"; "d"]%string) as Hrun by (by vm_compute).
  split; [done|].
  exact (display_topics_shows_top_terms (H:=stable_world) fitted_self "sklearn_lda" 0 0
           four_names 1 _ Hrun).
Defined.

(** ** The shape of the ranking vectors *)

Section RankingShape.
Context `{External}.
Implicit Types (s : settings) (self : RobustTopics).

Lemma rectangular_same_length {A} (rows : list (list A)) :
  (∀ r r', r ∈ rows → r' ∈ rows → length r = length r') → rectangular rows = true.
Proof.
  intros Hsame. destruct rows as [|r rows]; [done|]. simpl.
  apply forallb_forall. intros r' Hr'. apply bool_decide_eq_true.
  apply Hsame; [|apply list_elem_of_here].
  apply list_elem_of_further. by apply list_elem_of_In.
Qed.

Lemma mapM_Ok_fmap {A B} (f : A → result B) (g : A → B) (l : list A) :
  (∀ x, x ∈ l → f x = Ok (g x)) → mapM f l = Ok (g <$> l).
Proof.
  induction l as [|x l IH]; intros Hall; csimpl; [done|].
  rewrite (Hall x) by apply list_elem_of_here.
  change (Ok (g x) ≫= (λ y : B, mapM f l ≫= λ k, mret (y :: k)) = Ok (g x :: (g <$> l))).
  rewrite IH; [done|]. intros x' Hx'. apply Hall. by apply list_elem_of_further.
Qed.

Lemma terms_to_ranking_length (terms vocab : list nat) :
  length (_terms_to_ranking terms vocab) = length vocab.
Proof. unfold _terms_to_ranking. by rewrite length_fmap. Qed.

Lemma rankings_of_vector (vocab_vec : list nat) (sample : terms_array) run vec :
  run ∈ rankings_of vocab_vec sample → vec ∈ run → length vec = length vocab_vec.
Proof.
  unfold rankings_of. intros Hrun Hvec.
  apply list_elem_of_fmap in Hrun as (model_terms & -> & _).
  apply list_elem_of_fmap in Hvec as (t & -> & _). apply terms_to_ranking_length.
Qed.

Lemma rankings_of_rectangular self (vocab_vec : list nat) (group : list artifact) :
  same_topics group →
  np_array3 (rankings_of vocab_vec (group_terms self group))
  = Ok (rankings_of vocab_vec (group_terms self group)).
Proof.
  intros Hsame. unfold np_array3.
  rewrite !rectangular_same_length; [done| |].
  - intros vec vec' Hvec Hvec'.
    apply elem_of_concat in Hvec as (run & Hrun & Hvec).
    apply elem_of_concat in Hvec' as (run' & Hrun' & Hvec').
    rewrite (rankings_of_vector _ _ _ _ Hrun Hvec).
    by rewrite (rankings_of_vector _ _ _ _ Hrun' Hvec').
  - unfold rankings_of, group_terms. intros r r' Hr Hr'.
    apply list_elem_of_fmap in Hr as (mt & -> & Hmt), Hr' as (mt' & -> & Hmt').
    apply list_elem_of_fmap in Hmt as (m & -> & Hm), Hmt' as (m' & -> & Hm').
    unfold _get_top_terms. rewrite !length_fmap. by apply Hsame.
Qed.

(** X26. When the runs of every run-group agree on the number of topics,
    [_create_ranking_vectors] returns: per run-group, per run and per topic
    the rank vector of the topic's top terms over the family's vocabulary,
    so every vector is as long as the vocabulary. *)
Theorem ranking_vectors_shape self s :
  Forall same_topics (samples s) →
  ∃ rvs : list terms_array,
    _create_ranking_vectors self s = Ok rvs
    ∧ rvs = (λ group, rankings_of (elements (vocabulary (n_relevant_top_words self) s))
                        (group_terms self group)) <$> samples s
    ∧ ∀ arr run vec, arr ∈ rvs → run ∈ arr → vec ∈ run →
        length vec = size (vocabulary (n_relevant_top_words self) s).
Proof.
  intros Hsame. eexists. split; [|split; [reflexivity|]].
  - unfold _create_ranking_vectors, vocabulary. rewrite collect_terms_eq. simpl.
    rewrite mapM_fmap. apply mapM_Ok_fmap. intros group Hgroup.
    apply (rankings_of_rectangular self). by eapply Forall_forall in Hsame.
  - intros arr run vec Harr Hrun Hvec.
    apply list_elem_of_fmap in Harr as (group & -> & _).
    by rewrite (rankings_of_vector _ _ _ _ Hrun Hvec).
Qed.

End RankingShape.

Lemma ranking_vectors_shape_witness :
  Forall same_topics (samples two_groups)
  ∧ ∃ rvs : list terms_array,
      _create_ranking_vectors (H:=stable_world) (Self 2 1 []) two_groups = Ok rvs
      ∧ rvs = (λ group, rankings_of (elements (vocabulary (H:=stable_world) 1 two_groups))
                          (group_terms (H:=stable_world) (Self 2 1 []) group))
              <$> samples two_groups
      ∧ ∀ arr run vec, arr ∈ rvs → run ∈ arr → vec ∈ run →
          length vec = size (vocabulary (H:=stable_world) 1 two_groups).
Proof.
  assert (Forall same_topics (samples two_groups)) as Hsame.
  { repeat constructor; intros m m' Hm Hm';
      repeat (apply elem_of_cons in Hm as [->|Hm]); try (by apply elem_of_nil in Hm);
      repeat (apply elem_of_cons in Hm' as [->|Hm']); try (by apply elem_of_nil in Hm');
      reflexivity. }
  split; [done|].
  exact (ranking_vectors_shape (H:=stable_world) (Self 2 1 []) two_groups Hsame).
Defined.
